(** * Scaling engine of benchpark (lib/benchpark/scaling.py)

    A shallow embedding of [Scaling.configure_scaling_policy],
    [Scaling.scale_experiment_variables] and the strong and weak
    scaling selectors, followed by the properties of the engine. *)

From Stdlib Require Import String Ascii ZArith Bool Arith Lia List Permutation.
Import ListNotations.

Set Implicit Arguments.

(** ** Python values

    The engine inspects its arguments with [isinstance]; the universe
    below holds the shapes it tells apart: integers and strings as atoms,
    tuples of atoms as keys, lists of atoms as values. *)

Inductive pyobj : Type :=
| PInt (z : Z)
| PStr (s : string).

Inductive pykey : Type :=
| KObj (o : pyobj)
| KTuple (t : list pyobj).

Inductive pyval : Type :=
| VObj (o : pyobj)
| VList (l : list pyobj).

Inductive pyexc : Type :=
| RuntimeError (msg : string)
| KeyError
| ValueError
| TypeError
| ZeroDivisionError
| IndexError
| StopIteration.

Inductive result (A : Type) : Type :=
| Ok (a : A)
| Raise (e : pyexc).

Arguments Ok {A} a.
Arguments Raise {A} e.

Definition bind {A B : Type} (c : result A) (f : A -> result B) : result B :=
  match c with
  | Ok a => f a
  | Raise e => Raise e
  end.

Notation "x <- c ;; k" := (bind c (fun x => k))
  (at level 61, c at next level, right associativity).

(** [==] on atoms and keys. *)

Definition pyobj_eqb (a b : pyobj) : bool :=
  match a, b with
  | PInt x, PInt y => Z.eqb x y
  | PStr x, PStr y => String.eqb x y
  | _, _ => false
  end.

Fixpoint pylist_eqb (a b : list pyobj) : bool :=
  match a, b with
  | [], [] => true
  | x :: a', y :: b' => pyobj_eqb x y && pylist_eqb a' b'
  | _, _ => false
  end.

Definition pykey_eqb (a b : pykey) : bool :=
  match a, b with
  | KObj x, KObj y => pyobj_eqb x y
  | KTuple x, KTuple y => pylist_eqb x y
  | _, _ => false
  end.

(** [isinstance(o, int)], [isinstance(o, str)]. *)

Definition is_int (o : pyobj) : bool :=
  match o with PInt _ => true | PStr _ => false end.

Definition is_str (o : pyobj) : bool :=
  match o with PStr _ => true | PInt _ => false end.

(** Truth value of a key: 0, the empty string and the empty tuple are false. *)

Definition key_truthy (k : pykey) : bool :=
  match k with
  | KObj (PInt z) => negb (Z.eqb z 0)
  | KObj (PStr s) => negb (String.eqb s EmptyString)
  | KTuple t => negb (Nat.eqb (length t) 0)
  end.

(** [a < b]: defined between two integers and between two strings. *)

Definition py_lt (a b : pyobj) : result bool :=
  match a, b with
  | PInt x, PInt y => Ok (Z.ltb x y)
  | PStr x, PStr y => Ok (String.ltb x y)
  | _, _ => Raise TypeError
  end.

(** [o * n] for an integer [n]: product of integers, repetition of a string. *)

Fixpoint str_repeat (s : string) (n : nat) : string :=
  match n with
  | O => EmptyString
  | S n' => String.append s (str_repeat s n')
  end.

Definition py_mul (o : pyobj) (n : Z) : pyobj :=
  match o with
  | PInt z => PInt (z * n)
  | PStr s => PStr (str_repeat s (Z.to_nat n))
  end.

(** [min(l)]: keeps the first of equal minima; [ValueError] on the empty
    list. *)

Fixpoint min_from (cur : pyobj) (l : list pyobj) : result pyobj :=
  match l with
  | [] => Ok cur
  | x :: l' =>
      b <- py_lt x cur ;;
      min_from (if b then x else cur) l'
  end.

Definition py_min (l : list pyobj) : result pyobj :=
  match l with
  | [] => Raise ValueError
  | x :: l' => min_from x l'
  end.

(** [l.index(m)]. *)

Fixpoint py_index (l : list pyobj) (m : pyobj) : result nat :=
  match l with
  | [] => Raise ValueError
  | x :: l' =>
      if pyobj_eqb x m then Ok O
      else (i <- py_index l' m ;; Ok (S i))
  end.

(** [l[-1]]. *)

Fixpoint py_last (A : Type) (l : list A) : result A :=
  match l with
  | [] => Raise IndexError
  | [x] => Ok x
  | _ :: l' => py_last l'
  end.

(** ** Dictionaries

    A [dict] keeps its items in insertion order; a key occurs once. *)

Definition dict (V : Type) : Type := list (pykey * V).

Fixpoint dict_get (V : Type) (d : dict V) (k : pykey) : result V :=
  match d with
  | [] => Raise KeyError
  | (k', v) :: d' => if pykey_eqb k' k then Ok v else dict_get d' k
  end.

Fixpoint dict_mem (V : Type) (d : dict V) (k : pykey) : bool :=
  match d with
  | [] => false
  | (k', _) :: d' => pykey_eqb k' k || dict_mem d' k
  end.

(** [d[k] = v]: the value changes in place when [k] is present, else the
    item is added at the end. *)

Fixpoint dict_set (V : Type) (d : dict V) (k : pykey) (v : V) : dict V :=
  match d with
  | [] => [(k, v)]
  | (k', v') :: d' =>
      if pykey_eqb k' k then (k', v) :: d'
      else (k', v') :: dict_set d' k v
  end.

(** [a | b]: a copy of [a] updated with the items of [b]. *)

Definition dict_union (V : Type) (a b : dict V) : dict V :=
  fold_left (fun acc kv => dict_set acc (fst kv) (snd kv)) b a.

(** [next(iter(d))]. *)

Definition dict_first_key (V : Type) (d : dict V) : result pykey :=
  match d with
  | [] => Raise StopIteration
  | (k, _) :: _ => Ok k
  end.

Definition dict_keys (V : Type) (d : dict V) : list pykey := map fst d.

(** A loop body that may raise, run over a list. *)

Fixpoint foldM (A S : Type) (f : S -> A -> result S) (l : list A) (s : S)
  : result S :=
  match l with
  | [] => Ok s
  | x :: l' => s' <- f s x ;; foldM f l' s'
  end.

Fixpoint mapM (A B : Type) (f : A -> result B) (l : list A) : result (list B) :=
  match l with
  | [] => Ok []
  | x :: l' => y <- f x ;; ys <- mapM f l' ;; Ok (y :: ys)
  end.

(** ** configure_scaling_policy *)

(** The first loop: the length of the first list among the values, else 1. *)

Fixpoint first_list_len (vals : list pyval) : nat :=
  match vals with
  | [] => 1
  | VList l :: _ => length l
  | VObj _ :: vals' => first_list_len vals'
  end.

Definition configure_scaling_policy
  (input_variables : dict pyval) (scaling_variable : pykey)
  : result (list nat) :=
  let n_dims := first_list_len (map snd input_variables) in
  val <- dict_get input_variables scaling_variable ;;
  min_dim <- match val with
             | VList l => m <- py_min l ;; py_index l m
             | VObj _ => Ok 0
             end ;;
  Ok (map (fun i => (min_dim + i) mod n_dims) (seq 0 n_dims)).

(** ** scale_experiment_variables *)

Definition msg_invalid_driver : string := "Invalid ordering variable".
Definition msg_str_int : string :=
  "Invalid key-value pair. Expected type str->int".
Definition msg_key_len : string :=
  "Invalid value. Length of key {k} does not match the length of value {v}".
Definition msg_dims : string :=
  "Variables to be scaled have different dimensions".
Definition msg_tuple_list : string :=
  "Invalid key-value pair. Expected type tuple(str)->list[int]".
Definition msg_key : string :=
  "Invalid key. Expected type str or tuple(str)".

(** [not n_dims]: true for [None] and for 0. *)

Definition n_dims_unset (n_dims : option nat) : bool :=
  match n_dims with
  | None => true
  | Some n => Nat.eqb n 0
  end.

(** One turn of the checking loop; the state is [n_dims]. *)

Definition check_item (n_dims : option nat) (kv : pykey * pyval)
  : result (option nat) :=
  let '(k, v) := kv in
  match k with
  | KObj (PStr _) =>
      match v with
      | VObj (PInt _) => Ok n_dims
      | _ => Raise (RuntimeError msg_str_int)
      end
  | KTuple t =>
      if forallb is_str t then
        match v with
        | VList l =>
            if forallb is_int l then
              if negb (Nat.eqb (length t) (length l)) then
                Raise (RuntimeError msg_key_len)
              else
                let n_dims' :=
                  if n_dims_unset n_dims then Some (length l) else n_dims in
                if negb (match n_dims' with
                         | Some n => Nat.eqb (length l) n
                         | None => false
                         end)
                then Raise (RuntimeError msg_dims)
                else Ok n_dims'
            else Raise (RuntimeError msg_tuple_list)
        | VObj _ => Raise (RuntimeError msg_tuple_list)
        end
      else Raise (RuntimeError msg_key)
  | KObj (PInt _) => Raise (RuntimeError msg_key)
  end.

Definition check_variables (input_variables : dict pyval)
  : result (option nat) :=
  foldM check_item input_variables None.

(** The accumulators: one list per dimension, seeded with the base value. *)

Definition seed (val : pyval) : list (list pyobj) :=
  match val with
  | VList l => map (fun v => [v]) l
  | VObj o => [[o]]
  end.

Definition seed_variables (input_variables : dict pyval)
  : dict (list (list pyobj)) :=
  map (fun kv => (fst kv, seed (snd kv))) input_variables.

(** [scaling_order_index[exp_num % len(scaling_order_index)]]. *)

Definition order_at (order : list nat) (exp_num : nat) : result nat :=
  match length order with
  | O => Raise ZeroDivisionError
  | _ =>
      match nth_error order (exp_num mod length order) with
      | Some d => Ok d
      | None => Raise IndexError
      end
  end.

(** The [enumerate] loop over the dimensions of one variable. *)

Fixpoint scale_dims (order : list nat) (factor : Z) (exp_num : nat)
  (p_idx : nat) (param : list (list pyobj)) : result (list (list pyobj)) :=
  match param with
  | [] => Ok []
  | p_val :: rest =>
      d <- order_at order exp_num ;;
      x <- py_last p_val ;;
      let p_val' := p_val ++ [if Nat.eqb p_idx d then py_mul x factor else x] in
      rest' <- scale_dims order factor exp_num (S p_idx) rest ;;
      Ok (p_val' :: rest')
  end.

Definition scale_param (order : list nat) (factor : Z) (exp_num : nat)
  (param : list (list pyobj)) : result (list (list pyobj)) :=
  match param with
  | [p0] =>
      x <- py_last p0 ;;
      Ok [p0 ++ [py_mul x factor]]
  | _ => scale_dims order factor exp_num 0 param
  end.

(** One experiment: every variable gets one more value per dimension. *)

Definition scale_step (order : list nat) (factor : Z) (exp_num : nat)
  (scaled : dict (list (list pyobj))) : result (dict (list (list pyobj))) :=
  mapM (fun kv => p <- scale_param order factor exp_num (snd kv) ;;
                  Ok (fst kv, p)) scaled.

Definition scale_loop (order : list nat) (factor : Z) (n : nat)
  (scaled : dict (list (list pyobj))) : result (dict (list (list pyobj))) :=
  foldM (fun s exp_num => scale_step order factor exp_num s) (seq 0 n) scaled.

(** [acc if len(acc) > 1 else acc[0]]. *)

Definition reduce_acc (acc : list pyobj) : result pyval :=
  if Nat.ltb 1 (length acc) then Ok (VList acc)
  else match acc with
       | x :: _ => Ok (VObj x)
       | [] => Raise IndexError
       end.

(** [for i in range(len(k)): output_variables[k[i]] = ...]. *)

Fixpoint unpack_tuple (t : list pyobj) (i : nat) (v : list (list pyobj))
  (out : dict pyval) : result (dict pyval) :=
  match t with
  | [] => Ok out
  | name :: t' =>
      match nth_error v i with
      | None => Raise IndexError
      | Some acc =>
          r <- reduce_acc acc ;;
          unpack_tuple t' (S i) v (dict_set out (KObj name) r)
      end
  end.

Definition unpack_item (out : dict pyval) (kv : pykey * list (list pyobj))
  : result (dict pyval) :=
  let '(k, v) := kv in
  match k with
  | KTuple t => unpack_tuple t 0 v out
  | KObj _ =>
      match v with
      | [] => Raise IndexError
      | acc :: _ => r <- reduce_acc acc ;; Ok (dict_set out k r)
      end
  end.

Definition unpack (scaled : dict (list (list pyobj))) : result (dict pyval) :=
  foldM unpack_item scaled [].

Definition resolve_driver (input_variables : dict pyval)
  (scaling_variable : option pykey) : result pykey :=
  match scaling_variable with
  | Some k => if key_truthy k then Ok k else dict_first_key input_variables
  | None => dict_first_key input_variables
  end.

Definition scale_experiment_variables
  (input_variables : dict pyval) (scaling_factor : Z) (num_exprs : Z)
  (scaling_variable : option pykey) : result (dict pyval) :=
  match input_variables with
  | [] => Ok []
  | _ :: _ =>
      driver <- resolve_driver input_variables scaling_variable ;;
      if negb (dict_mem input_variables driver) then
        Raise (RuntimeError msg_invalid_driver)
      else
        _ <- check_variables input_variables ;;
        scaling_order_index <-
          configure_scaling_policy input_variables driver ;;
        scaled_variables <-
          scale_loop scaling_order_index scaling_factor
            (Z.to_nat (num_exprs - 1)) (seed_variables input_variables) ;;
        unpack scaled_variables
  end.

(** ** The selectors *)

Definition generate_strong_scaling_params
  (resource_variable : dict pyval) (scaling_factor num_exprs : Z)
  : result (dict pyval) :=
  scale_experiment_variables resource_variable scaling_factor num_exprs None.

Definition generate_weak_scaling_params
  (resource_variable problem_size_variables : dict pyval)
  (scaling_factor num_exprs : Z) : result (dict pyval) :=
  scaling_variable <- dict_first_key resource_variable ;;
  scale_experiment_variables
    (dict_union resource_variable problem_size_variables)
    scaling_factor num_exprs (Some scaling_variable).

Definition generate_throughput_scaling_params
  (problem_size_variables : dict pyval) (scaling_factor num_exprs : Z)
  : result (dict pyval) :=
  scale_experiment_variables problem_size_variables scaling_factor num_exprs
    None.

(** Literals: a string key, a tuple-of-strings key, an integer value, a
    list-of-integers value. *)

Definition sk (s : string) : pykey := KObj (PStr s).
Definition tk (l : list string) : pykey := KTuple (map PStr l).
Definition iv (z : Z) : pyval := VObj (PInt z).
Definition lv (l : list Z) : pyval := VList (map PInt l).

(** * Vocabulary of the properties *)

(** The sequence [(start + i) mod k] for [i] in [0 .. k-1]. *)

Definition rotation (start k : nat) : list nat :=
  map (fun i => (start + i) mod k) (seq 0 k).

(** [i] is the index of the first occurrence of the least element of [zs]. *)

Definition first_min_index (zs : list Z) (i : nat) : Prop :=
  i < length zs
  /\ (forall j, j < length zs -> (nth i zs 0 <= nth j zs 0)%Z)
  /\ (forall j, j < i -> (nth i zs 0 < nth j zs 0)%Z).

(** The starting dimension read off the driver's value. *)

Definition driver_start (val : pyval) (start : nat) : Prop :=
  match val with
  | VObj _ => start = 0
  | VList l => exists zs, l = map PInt zs /\ first_min_index zs start
  end.

(** A driver value the planner accepts: any scalar, or a list of integers
    with at least one element. *)

Definition scalar_or_nonempty_ints (val : pyval) : bool :=
  match val with
  | VObj _ => true
  | VList l => negb (Nat.eqb (length l) 0) && forallb is_int l
  end.

Definition raises_only (A : Type) (P : pyexc -> Prop) (c : result A) : Prop :=
  forall e, c = Raise e -> P e.

(** An exception other than the [RuntimeError]s of the sweep. *)

Definition not_runtime (e : pyexc) : Prop :=
  match e with
  | RuntimeError _ => False
  | _ => True
  end.

(** An exception other than the invalid-driver error. *)

Definition not_driver_error (e : pyexc) : Prop :=
  e <> RuntimeError msg_invalid_driver.

(** An item the checking loop accepts on its own: a string name with an
    integer, or a tuple of strings with a list of as many integers. *)

Definition item_typed (kv : pykey * pyval) : bool :=
  match kv with
  | (KObj (PStr _), VObj (PInt _)) => true
  | (KTuple t, VList l) =>
      forallb is_str t && forallb is_int l && Nat.eqb (length t) (length l)
  | _ => false
  end.

(** An accepted item whose tuple name, if it is one, has a component. *)

Definition item_well_formed (kv : pykey * pyval) : bool :=
  item_typed kv
  && match kv with
     | (_, VList l) => negb (Nat.eqb (length l) 0)
     | _ => true
     end.

(** A state of the checking loop in which 0 does not stand for unset. *)

Definition dims_state_ok (st : option nat) : Prop :=
  match st with
  | None => True
  | Some n => 0 < n
  end.

(** The items of the result when nothing is scaled: one per component of a
    tuple name, with the matching base value, and the item itself for any
    other name. *)

Definition base_items_of (kv : pykey * pyval) : list (pykey * pyval) :=
  match kv with
  | (KTuple t, VList l) => combine (map KObj t) (map VObj l)
  | _ => [kv]
  end.

Definition base_items (vars : dict pyval) : list (pykey * pyval) :=
  flat_map base_items_of vars.

(** The dimension scaled in experiment [e] under the order that starts at
    [start] and has [k] entries. *)

Definition selected_dim (start k e : nat) : nat := (start + e mod k) mod k.

(** How often dimension [p] is scaled in the experiments [0 .. e-1]. *)

Definition scaled_times (start k p e : nat) : nat :=
  length (filter (fun e' => Nat.eqb (selected_dim start k e') p) (seq 0 e)).

(** The values of dimension [p] in the experiments [0 .. n]. *)

Definition dim_values (vals : list Z) (f : Z) (start k p n : nat)
  : list pyobj :=
  map (fun e => PInt (nth p vals 0 * f ^ Z.of_nat (scaled_times start k p e))%Z)
    (seq 0 (S n)).

(** The residue of the experiments in which dimension [p] is selected. *)

Definition residue_of (start k p : nat) : nat := (p + k - start mod k) mod k.

Definition product (l : list Z) : Z := fold_right Z.mul 1%Z l.

(** The integer held by an atom (0 for a string). *)

Definition int_of (o : pyobj) : Z :=
  match o with
  | PInt z => z
  | PStr _ => 0%Z
  end.

(** The values [b * f ^ e] for the experiments [e] in [0 .. n]. *)

Definition geometric (b f : Z) (n : nat) : list pyobj :=
  map (fun e => PInt (b * f ^ Z.of_nat e)%Z) (seq 0 (S n)).

(** The accumulators of one item after [n] experiments under the order
    that starts at [start]. *)

Definition item_accs (f : Z) (start n : nat) (kv : pykey * pyval)
  : list (list pyobj) :=
  match snd kv with
  | VObj o => [geometric (int_of o) f n]
  | VList l =>
      map (fun p => dim_values (map int_of l) f start (length l) p n)
        (seq 0 (length l))
  end.

(** The result items of one item after [n >= 1] experiments. *)

Definition item_out (f : Z) (start n : nat) (kv : pykey * pyval)
  : list (pykey * pyval) :=
  match kv with
  | (KTuple t, VList l) =>
      combine (map KObj t)
        (map (fun p =>
                VList (dim_values (map int_of l) f start (length l) p n))
           (seq 0 (length l)))
  | (k, VObj o) => [(k, VList (geometric (int_of o) f n))]
  | (KObj _, VList _) => []
  end.

Definition sweep_items (f : Z) (start n : nat) (vars : dict pyval)
  : list (pykey * pyval) :=
  flat_map (item_out f start n) vars.

(** The values of a list item all have the length [c]. *)

Definition all_dims (c : nat) (vars : dict pyval) : Prop :=
  Forall (fun kv => forall l, snd kv = VList l -> length l = c) vars.

(** The messages of the sweep's [RuntimeError]s. *)

Definition sweep_messages : list string :=
  [msg_invalid_driver; msg_str_int; msg_key_len; msg_dims; msg_tuple_list;
   msg_key].

(** A [RuntimeError] with one of these messages. *)

Definition documented_error (e : pyexc) : Prop :=
  exists m, e = RuntimeError m /\ In m sweep_messages.

(** A result item holding a bare value and a result item with the same
    name holding a list that begins with this value. *)

Definition starts_with_item (a b : pykey * pyval) : Prop :=
  fst a = fst b
  /\ exists x l, snd a = VObj x /\ snd b = VList (x :: l).

(** A result value that is [n] times the same integer. *)

Definition constant_list (n : nat) (v : pyval) : Prop :=
  exists b, v = VList (repeat (PInt b) n).

(** Accumulators that all hold a value. *)

Definition accs_ok (param : list (list pyobj)) : Prop :=
  Forall (fun acc => acc <> []) param.

(** The accumulators [s] follow the items of [vars]: same keys, as many
    accumulators as the seed of each value, none of them empty. *)

Definition follows (vars : dict pyval) (s : dict (list (list pyobj)))
  : Prop :=
  Forall2 (fun kv sp =>
             fst sp = fst kv
             /\ length (snd sp) = length (seed (snd kv))
             /\ accs_ok (snd sp))
    vars s.

(** A result value that is a list of [n] integers. *)

Definition int_list_of_length (n : nat) (v : pyval) : Prop :=
  exists zs, v = VList (map PInt zs) /\ length zs = n.

(** Two result items with the same name, the second holding one more
    value at the end. *)

Definition extends_item (a b : pykey * pyval) : Prop :=
  fst a = fst b
  /\ exists l x, snd a = VList l /\ snd b = VList (l ++ [x]).

(** ** systems/tioga/system.py

    A path is the list of its components; [p / s] adds one. The values
    read from [self.spec.variants] and [Tioga.resource_location] are
    arguments. *)

Module Tioga.

Definition path : Type := list string.

Definition join (p : path) (s : string) : path := p ++ [s].

Record variants : Type := {
  rocm : string;
  gtl : string;
  compiler : string
}.

Definition external_pkg_configs (resource_location : path) (v : variants)
  : list path :=
  let externals := join resource_location "externals" in
  let selections := [join (join externals "base") "00-packages.yaml"] in
  let selections :=
    if String.eqb (rocm v) "543" then
      selections
      ++ [join (join externals "rocm") "00-version-543-packages.yaml"]
    else if String.eqb (rocm v) "551" then
      selections
      ++ [join (join externals "rocm") "01-version-551-packages.yaml"]
    else selections in
  if String.eqb (compiler v) "cce" then
    let selections :=
      if String.eqb (gtl v) "true" then
        selections ++ [join (join externals "mpi") "02-cce-ygtl-packages.yaml"]
      else
        selections ++ [join (join externals "mpi") "01-cce-ngtl-packages.yaml"]
    in
    selections ++ [join (join externals "libsci") "01-cce-packages.yaml"]
  else if String.eqb (compiler v) "gcc" then
    (selections ++ [join (join externals "mpi") "00-gcc-ngtl-packages.yaml"])
    ++ [join (join externals "libsci") "00-gcc-packages.yaml"]
  else selections.

Definition compiler_configs (resource_location : path) (v : variants)
  : list path :=
  let compilers := join resource_location "compilers" in
  if String.eqb (compiler v) "cce" then
    [join (join compilers "rocm") "00-rocm-551-compilers.yaml"]
  else if String.eqb (compiler v) "gcc" then
    [join (join compilers "gcc") "00-gcc-12-compilers.yaml"]
  else [].

(** The directory of a selection: the component before the file name. *)


End Tioga.

(** * Properties *)

Local Open Scope string_scope.
Local Open Scope list_scope.

(** ** Equality tests *)

Lemma pyobj_eqb_eq (a b : pyobj) : pyobj_eqb a b = true <-> a = b.
Proof.
  destruct a as [x|x], b as [y|y]; simpl; split; intro H;
    try discriminate; try congruence.
  - apply Z.eqb_eq in H. congruence.
  - inversion H. apply Z.eqb_refl.
  - apply String.eqb_eq in H. congruence.
  - inversion H. apply String.eqb_refl.
Qed.

Lemma pylist_eqb_eq (a b : list pyobj) : pylist_eqb a b = true <-> a = b.
Proof.
  revert b. induction a as [|x a IH]; intros [|y b]; simpl; split; intro H;
    try discriminate; try reflexivity.
  - apply andb_true_iff in H. destruct H as [H1 H2].
    apply pyobj_eqb_eq in H1. apply IH in H2. congruence.
  - inversion H; subst. apply andb_true_iff. split.
    + now apply pyobj_eqb_eq.
    + now apply IH.
Qed.

Lemma pykey_eqb_eq (a b : pykey) : pykey_eqb a b = true <-> a = b.
Proof.
  destruct a as [x|x], b as [y|y]; simpl; split; intro H;
    try discriminate.
  - apply pyobj_eqb_eq in H. congruence.
  - inversion H. now apply pyobj_eqb_eq.
  - apply pylist_eqb_eq in H. congruence.
  - inversion H. now apply pylist_eqb_eq.
Qed.

Lemma pykey_eqb_refl (k : pykey) : pykey_eqb k k = true.
Proof. now apply pykey_eqb_eq. Qed.

Lemma pykey_eqb_neq (a b : pykey) : pykey_eqb a b = false <-> a <> b.
Proof.
  split.
  - intros H E. apply pykey_eqb_eq in E. congruence.
  - intro H. destruct (pykey_eqb a b) eqn:E; [|reflexivity].
    apply pykey_eqb_eq in E. contradiction.
Qed.

(** ** Dictionaries *)

Section DictFacts.

Variable V : Type.
Implicit Types (d : dict V) (k : pykey) (v : V).

Lemma dict_mem_get d k :
  dict_mem d k = true <-> exists v, dict_get d k = Ok v.
Proof.
  induction d as [|[k' v'] d IH]; simpl.
  - split; [discriminate | intros [v H]; discriminate].
  - destruct (pykey_eqb k' k); simpl.
    + split; [intros _; now exists v' | reflexivity].
    + exact IH.
Qed.

Lemma dict_mem_false_get d k :
  dict_mem d k = false <-> dict_get d k = Raise KeyError.
Proof.
  induction d as [|[k' v'] d IH]; simpl.
  - split; reflexivity.
  - destruct (pykey_eqb k' k); simpl.
    + split; discriminate.
    + exact IH.
Qed.

Lemma dict_mem_In d k : dict_mem d k = true <-> In k (dict_keys d).
Proof.
  induction d as [|[k' v'] d IH]; simpl.
  - split; [discriminate | tauto].
  - rewrite orb_true_iff, IH, pykey_eqb_eq. tauto.
Qed.

Lemma dict_get_set_same d k v : dict_get (dict_set d k v) k = Ok v.
Proof.
  induction d as [|[k' v'] d IH]; simpl.
  - now rewrite pykey_eqb_refl.
  - destruct (pykey_eqb k' k) eqn:E; simpl; rewrite E; [reflexivity | exact IH].
Qed.

Lemma dict_get_set_other d k k' v :
  k <> k' -> dict_get (dict_set d k v) k' = dict_get d k'.
Proof.
  intro N. induction d as [|[k0 v0] d IH]; simpl.
  - apply pykey_eqb_neq in N. now rewrite N.
  - destruct (pykey_eqb k0 k) eqn:E; simpl.
    + apply pykey_eqb_eq in E; subst k0.
      apply pykey_eqb_neq in N. now rewrite N.
    + destruct (pykey_eqb k0 k'); [reflexivity | exact IH].
Qed.

Lemma dict_first_key_set d k v :
  d <> [] -> dict_first_key (dict_set d k v) = dict_first_key d.
Proof.
  destruct d as [|[k0 v0] d]; [congruence|]. intros _. simpl.
  now destruct (pykey_eqb k0 k).
Qed.

Lemma dict_set_nonempty d k v : dict_set d k v <> [].
Proof.
  destruct d as [|[k0 v0] d]; simpl; [discriminate|].
  now destruct (pykey_eqb k0 k).
Qed.

Lemma dict_union_nil d : dict_union d [] = d.
Proof. reflexivity. Qed.

Lemma dict_union_cons d kv b :
  dict_union d (kv :: b) = dict_union (dict_set d (fst kv) (snd kv)) b.
Proof. reflexivity. Qed.

Lemma dict_first_key_union d b :
  d <> [] -> dict_first_key (dict_union d b) = dict_first_key d.
Proof.
  revert d. induction b as [|kv b IH]; intros d N; [reflexivity|].
  rewrite dict_union_cons, IH by apply dict_set_nonempty.
  now apply dict_first_key_set.
Qed.

(** A key absent from the right operand keeps the left operand's value. *)

Lemma dict_get_union_left d b k :
  dict_mem b k = false -> dict_get (dict_union d b) k = dict_get d k.
Proof.
  revert d. induction b as [|[k' v'] b IH]; intros d M; [reflexivity|].
  simpl in M. apply orb_false_iff in M. destruct M as [M1 M2].
  rewrite dict_union_cons, IH by assumption. simpl.
  apply dict_get_set_other. now apply pykey_eqb_neq.
Qed.

(** A key of the right operand gets the right operand's value. *)

Lemma dict_get_union_right d b k v :
  NoDup (dict_keys b) -> dict_get b k = Ok v ->
  dict_get (dict_union d b) k = Ok v.
Proof.
  revert d. induction b as [|[k' v'] b IH]; intros d ND G; [discriminate|].
  simpl in G. inversion ND as [|? ? Hnin ND']; subst.
  rewrite dict_union_cons. simpl.
  destruct (pykey_eqb k' k) eqn:E.
  - apply pykey_eqb_eq in E; subst k'. inversion G; subst v'.
    rewrite dict_get_union_left.
    + apply dict_get_set_same.
    + destruct (dict_mem b k) eqn:M; [|reflexivity].
      apply dict_mem_In in M. contradiction.
  - now apply IH.
Qed.

End DictFacts.

(** ** The selectors *)

Lemma resolve_driver_first (vars : dict pyval) (k0 : pykey) :
  dict_first_key vars = Ok k0 ->
  resolve_driver vars (Some k0) = resolve_driver vars None.
Proof.
  intro H. unfold resolve_driver. now destruct (key_truthy k0).
Qed.

Lemma scale_first_key_driver (vars : dict pyval) (f n : Z) (k0 : pykey) :
  dict_first_key vars = Ok k0 ->
  scale_experiment_variables vars f n (Some k0)
  = scale_experiment_variables vars f n None.
Proof.
  intro H. unfold scale_experiment_variables.
  destruct vars as [|kv vars]; [reflexivity|].
  now rewrite (resolve_driver_first _ H).
Qed.

(** C1, as amended. The merged set of weak scaling holds, for a key of both
    groups, the value of the problem-size group (the right operand of the
    union wins); a key of the resource group alone keeps its value; and when
    the resource group is not empty its first key is passed as the driver. *)
Theorem weak_scaling_merge
  (resource problem : dict pyval) (f n : Z)
  (Hdict : NoDup (dict_keys problem)) :
  (forall k vr vp,
      dict_get resource k = Ok vr -> dict_get problem k = Ok vp ->
      dict_get (dict_union resource problem) k = Ok vp)
  /\ (forall k,
         dict_mem problem k = false ->
         dict_get (dict_union resource problem) k = dict_get resource k)
  /\ (forall k0,
         dict_first_key resource = Ok k0 ->
         dict_first_key (dict_union resource problem) = Ok k0
         /\ generate_weak_scaling_params resource problem f n
            = scale_experiment_variables
                (dict_union resource problem) f n (Some k0)).
Proof.
  split; [|split].
  - intros k vr vp _ Hp. now apply dict_get_union_right.
  - intros k Hk. now apply dict_get_union_left.
  - intros k0 Hk0. split.
    + rewrite dict_first_key_union; [assumption|].
      intro E; subst resource; discriminate.
    + unfold generate_weak_scaling_params. now rewrite Hk0.
Qed.

Lemma weak_scaling_merge_witness :
  NoDup (dict_keys [(sk "n", iv 2)])
  /\ dict_get (dict_union [(sk "n", iv 1)] [(sk "n", iv 2)]) (sk "n")
     = Ok (iv 2).
Proof.
  assert (ND : NoDup (dict_keys [(sk "n", iv 2)])).
  { constructor; [intros []| constructor]. }
  split; [exact ND|].
  apply (proj1 (weak_scaling_merge [(sk "n", iv 1)] [(sk "n", iv 2)] 2 1 ND)
           (sk "n") (iv 1) (iv 2)); reflexivity.
Defined.

(** On the key ["n"] of both groups the merged set does not hold the
    resource value 1, and the sweep starts from the problem-size value 2. *)
Lemma weak_scaling_resource_value_lost :
  dict_get [(sk "n", iv 1)] (sk "n") = Ok (iv 1)
  /\ dict_get [(sk "n", iv 2)] (sk "n") = Ok (iv 2)
  /\ dict_get (dict_union [(sk "n", iv 1)] [(sk "n", iv 2)]) (sk "n")
     <> Ok (iv 1)
  /\ generate_weak_scaling_params [(sk "n", iv 1)] [(sk "n", iv 2)] 2 1
     = Ok [(sk "n", iv 2)].
Proof.
  repeat split; try reflexivity. vm_compute. discriminate.
Qed.

(** C9, as amended. With a resource group that is not empty, weak scaling
    with an empty problem-size group returns what strong scaling returns on
    the same resource group, factor and count. *)
Theorem weak_empty_problem_is_strong
  (resource : dict pyval) (f n : Z) (Hne : resource <> []) :
  generate_weak_scaling_params resource [] f n
  = generate_strong_scaling_params resource f n.
Proof.
  unfold generate_weak_scaling_params, generate_strong_scaling_params.
  rewrite dict_union_nil.
  destruct resource as [|[k0 v0] rest]; [congruence|].
  change (dict_first_key ((k0, v0) :: rest)) with (@Ok pykey k0).
  unfold bind at 1. now apply scale_first_key_driver.
Qed.

Lemma weak_empty_problem_is_strong_witness :
  [(tk ["n"; "r"], lv [1; 4]%Z)] <> []
  /\ generate_weak_scaling_params [(tk ["n"; "r"], lv [1; 4]%Z)] [] 2 3
     = generate_strong_scaling_params [(tk ["n"; "r"], lv [1; 4]%Z)] 2 3.
Proof.
  assert (N : [(tk ["n"; "r"], lv [1; 4]%Z)] <> []) by discriminate.
  split; [exact N|].
  apply (weak_empty_problem_is_strong 2 3 N).
Defined.

(** On the empty resource group weak scaling raises [StopIteration] while
    strong scaling returns the empty result. *)
Lemma weak_empty_resource_differs :
  generate_weak_scaling_params [] [] 2 3 = Raise StopIteration
  /\ generate_strong_scaling_params [] 2 3 = Ok []
  /\ generate_weak_scaling_params [] [] 2 3
     <> generate_strong_scaling_params [] 2 3.
Proof.
  repeat split. vm_compute. discriminate.
Qed.

(** ** The worked example *)

(** The example as printed: a string key with a list value is refused by the
    type check of the first item. *)
Lemma nodes_example_string_key_raises :
  scale_experiment_variables
    [(sk "nodes", lv [1; 4]%Z); (sk "x", iv 10)] 2 3 (Some (sk "nodes"))
  = Raise (RuntimeError msg_str_int)
  /\ scale_experiment_variables
       [(sk "nodes", lv [1; 4]%Z); (sk "x", iv 10)] 2 3 (Some (sk "nodes"))
     <> Ok [(sk "nodes0", lv [1; 2; 2]%Z); (sk "nodes1", lv [4; 4; 8]%Z);
            (sk "x", lv [10; 20; 40]%Z)].
Proof.
  split; [reflexivity | vm_compute; discriminate].
Qed.

(** C2, as amended. With the two-component tuple name [("nodes0",
    "nodes1")] for the nodes variable, driver that name, factor 2 and count
    3, the scaling order is [0, 1] and the result maps ["nodes0"] to
    [1, 2, 2], ["nodes1"] to [4, 4, 8] and ["x"] to [10, 20, 40]. *)
Theorem nodes_example_tuple_key :
  configure_scaling_policy
    [(tk ["nodes0"; "nodes1"], lv [1; 4]%Z); (sk "x", iv 10)]
    (tk ["nodes0"; "nodes1"])
  = Ok [0; 1]
  /\ scale_experiment_variables
       [(tk ["nodes0"; "nodes1"], lv [1; 4]%Z); (sk "x", iv 10)] 2 3
       (Some (tk ["nodes0"; "nodes1"]))
     = Ok [(sk "nodes0", lv [1; 2; 2]%Z); (sk "nodes1", lv [4; 4; 8]%Z);
           (sk "x", lv [10; 20; 40]%Z)].
Proof.
  split; reflexivity.
Qed.

(** ** The planner *)

Lemma rotation_length start k : length (rotation start k) = k.
Proof. unfold rotation. now rewrite length_map, length_seq. Qed.

Lemma mod_shift_inj s k i j :
  i < k -> j < k -> (s + i) mod k = (s + j) mod k -> i = j.
Proof.
  intros Hi Hj H.
  pose proof (Nat.div_mod_eq (s + i) k) as E1.
  pose proof (Nat.div_mod_eq (s + j) k) as E2.
  rewrite H in E1.
  remember ((s + i) / k) as q1. remember ((s + j) / k) as q2.
  remember ((s + j) mod k) as r.
  destruct (Nat.lt_trichotomy q1 q2) as [L|[L|L]]; nia.
Qed.

Lemma rotation_NoDup start k : NoDup (rotation start k).
Proof.
  unfold rotation. apply NoDup_map_NoDup_ForallPairs; [|apply seq_NoDup].
  intros i j Hi Hj E. apply in_seq in Hi, Hj.
  apply (@mod_shift_inj start k); [lia | lia | exact E].
Qed.

Lemma rotation_perm start k : Permutation (rotation start k) (seq 0 k).
Proof.
  apply NoDup_Permutation_bis.
  - apply rotation_NoDup.
  - now rewrite rotation_length, length_seq.
  - intros x Hx. unfold rotation in Hx. apply in_map_iff in Hx.
    destruct Hx as [i [E Hi]]. apply in_seq in Hi. apply in_seq.
    subst x. pose proof (Nat.mod_upper_bound (start + i) k). lia.
Qed.

Lemma rotation_hd start k :
  0 < k -> hd_error (rotation start k) = Some (start mod k).
Proof.
  intro Hk. unfold rotation. destruct k as [|k]; [lia|].
  cbn [seq map hd_error]. now rewrite Nat.add_0_r.
Qed.

Lemma all_int_map (l : list pyobj) :
  forallb is_int l = true -> exists zs, l = map PInt zs.
Proof.
  induction l as [|x l IH]; simpl; intro H.
  - now exists [].
  - apply andb_true_iff in H. destruct H as [Hx Hl].
    destruct (IH Hl) as [zs E]. destruct x as [z|s]; [|discriminate].
    exists (z :: zs). simpl. congruence.
Qed.

Lemma all_int_of_map (zs : list Z) : forallb is_int (map PInt zs) = true.
Proof. induction zs; simpl; auto. Qed.

Lemma min_from_ints (c : Z) (zs : list Z) :
  min_from (PInt c) (map PInt zs) = Ok (PInt (fold_left Z.min zs c)).
Proof.
  revert c. induction zs as [|z zs IH]; intro c; simpl; [reflexivity|].
  destruct (Z.ltb_spec z c) as [L|L]; rewrite IH; do 2 f_equal.
  - f_equal. lia.
  - f_equal. lia.
Qed.

Lemma fold_min_spec (zs : list Z) (c : Z) :
  (fold_left Z.min zs c <= c)%Z
  /\ Forall (fun z => (fold_left Z.min zs c <= z)%Z) zs
  /\ (fold_left Z.min zs c = c \/ In (fold_left Z.min zs c) zs).
Proof.
  revert c. induction zs as [|z zs IH]; intro c; simpl.
  - repeat split; [lia | constructor | now left].
  - destruct (IH (Z.min c z)) as [H1 [H2 H3]]. repeat split.
    + lia.
    + constructor; [lia | exact H2].
    + destruct H3 as [H3|H3]; [|now right; right].
      destruct (Z.min_spec c z) as [[_ E]|[_ E]].
      * left. congruence.
      * right; left. congruence.
Qed.

Lemma py_index_ints (zs : list Z) (m : Z) :
  In m zs ->
  exists i, py_index (map PInt zs) (PInt m) = Ok i
            /\ i < length zs /\ nth i zs 0%Z = m
            /\ forall j, j < i -> nth j zs 0%Z <> m.
Proof.
  induction zs as [|z zs IH]; intro H; [contradiction|]. simpl.
  destruct (Z.eqb_spec z m) as [E|N].
  - exists 0. repeat split; [lia | exact E | intros j Hj; lia].
  - destruct H as [H|H]; [contradiction|].
    destruct (IH H) as [i [Hi [Hlt [Hn Hf]]]]. rewrite Hi. simpl.
    exists (S i). repeat split; [lia | exact Hn |].
    intros [|j] Hj; [exact N | apply Hf; lia].
Qed.

Lemma min_index_ints (zs : list Z) :
  zs <> [] ->
  exists start,
    (m <- py_min (map PInt zs) ;; py_index (map PInt zs) m) = Ok start
    /\ first_min_index zs start.
Proof.
  intro Hne. destruct zs as [|z zs]; [congruence|].
  cbn [map py_min]. rewrite min_from_ints. cbn [bind].
  destruct (fold_min_spec zs z) as [H1 [H2 H3]].
  set (m := fold_left Z.min zs z) in *.
  assert (Hin : In m (z :: zs)).
  { destruct H3 as [H3|H3]; [left; congruence | now right]. }
  destruct (py_index_ints _ _ Hin) as [i [Hi [Hlt [Hn Hf]]]].
  exists i. split; [exact Hi|]. unfold first_min_index.
  assert (Hall : Forall (fun x => (m <= x)%Z) (z :: zs))
    by (constructor; assumption).
  rewrite Forall_forall in Hall.
  repeat split; [exact Hlt | |].
  - intros j Hj. rewrite Hn. apply Hall. now apply nth_In.
  - intros j Hj. rewrite Hn.
    assert (m <= nth j (z :: zs) 0)%Z by (apply Hall; apply nth_In; lia).
    specialize (Hf j Hj). lia.
Qed.

(** The planner succeeds on a driver of the set whose value is a scalar or
    a list of integers that is not empty. *)

Lemma configure_scaling_policy_ok
  (vars : dict pyval) (d : pykey) (val : pyval) :
  dict_get vars d = Ok val ->
  scalar_or_nonempty_ints val = true ->
  exists start,
    driver_start val start
    /\ configure_scaling_policy vars d
       = Ok (rotation start (first_list_len (map snd vars))).
Proof.
  intros Hget Hok. unfold configure_scaling_policy. rewrite Hget. cbn [bind].
  destruct val as [o|l].
  - exists 0. split; reflexivity.
  - simpl in Hok. apply andb_true_iff in Hok. destruct Hok as [Hlen Hint].
    destruct (all_int_map _ Hint) as [zs E]. subst l.
    assert (Hne : zs <> []).
    { intro E; subst zs. discriminate. }
    destruct (@min_index_ints zs Hne) as [start [Hs Hf]].
    exists start. split.
    + exists zs. now split.
    + rewrite Hs. reflexivity.
Qed.

(** C3, as amended. For a driver that is a key of the set and whose value is
    a scalar or a list of integers with at least one element, the planner
    returns [(start + i) mod k] for [i] in [0 .. k-1], with [k] the length
    of the first list among the values (1 when there is none) and [start]
    the index of the first least element of the driver's list (0 for a
    scalar); the result is a permutation of [0 .. k-1] and begins with
    [start mod k], which is [start] when [start < k]. *)
Theorem scaling_order_is_rotation
  (vars : dict pyval) (d : pykey) (val : pyval)
  (Hkey : dict_get vars d = Ok val)
  (Hval : scalar_or_nonempty_ints val = true) :
  exists start,
    driver_start val start
    /\ configure_scaling_policy vars d
       = Ok (map (fun i => (start + i) mod first_list_len (map snd vars))
               (seq 0 (first_list_len (map snd vars))))
    /\ Permutation (rotation start (first_list_len (map snd vars)))
         (seq 0 (first_list_len (map snd vars)))
    /\ (0 < first_list_len (map snd vars) ->
        hd_error (rotation start (first_list_len (map snd vars)))
        = Some (start mod first_list_len (map snd vars)))
    /\ (start < first_list_len (map snd vars) ->
        hd_error (rotation start (first_list_len (map snd vars)))
        = Some start).
Proof.
  destruct (configure_scaling_policy_ok _ _ Hkey Hval) as [start [Hs Hc]].
  exists start. split; [exact Hs|]. split; [exact Hc|].
  split; [apply rotation_perm|]. split.
  - apply rotation_hd.
  - intro Hlt. rewrite rotation_hd by lia. f_equal.
    now apply Nat.mod_small.
Qed.

Lemma scaling_order_is_rotation_witness :
  dict_get [(tk ["a"; "b"; "c"], lv [5; 2; 2]%Z)] (tk ["a"; "b"; "c"])
  = Ok (lv [5; 2; 2]%Z)
  /\ scalar_or_nonempty_ints (lv [5; 2; 2]%Z) = true
  /\ exists start,
       driver_start (lv [5; 2; 2]%Z) start
       /\ configure_scaling_policy
            [(tk ["a"; "b"; "c"], lv [5; 2; 2]%Z)] (tk ["a"; "b"; "c"])
          = Ok (map (fun i => (start + i) mod 3) (seq 0 3)).
Proof.
  split; [reflexivity|]. split; [reflexivity|].
  destruct (@scaling_order_is_rotation
              [(tk ["a"; "b"; "c"], lv [5; 2; 2]%Z)] (tk ["a"; "b"; "c"])
              (lv [5; 2; 2]%Z) eq_refl eq_refl) as [start [Hs [Hc _]]].
  exists start. split; [exact Hs | exact Hc].
Defined.

(** The driver [()] is a key of the set, its value is the empty list, and
    the planner raises [ValueError] from [min]. *)
Lemma scaling_order_empty_driver_raises :
  dict_mem [(tk [], lv [])] (tk []) = true
  /\ configure_scaling_policy [(tk [], lv [])] (tk []) = Raise ValueError.
Proof. split; reflexivity. Qed.

(** C7, as amended. For a driver that is a key of the set and whose value is
    a scalar or a list of integers with at least one element, the planner
    returns without error a sequence of length [k], the length of the first
    list among the values (1 when there is none); [k] is at least 1 when no
    value of the set is the empty list. *)
Theorem planner_returns_k_indices
  (vars : dict pyval) (d : pykey) (val : pyval)
  (Hkey : dict_get vars d = Ok val)
  (Hval : scalar_or_nonempty_ints val = true) :
  exists order,
    configure_scaling_policy vars d = Ok order
    /\ length order = first_list_len (map snd vars)
    /\ (Forall (fun kv => snd kv <> VList []) vars -> 1 <= length order).
Proof.
  destruct (configure_scaling_policy_ok _ _ Hkey Hval) as [start [_ Hc]].
  exists (rotation start (first_list_len (map snd vars))).
  split; [exact Hc|]. rewrite rotation_length. split; [reflexivity|].
  clear. induction vars as [|[k v] rest IH]; intro H; simpl; [lia|].
  inversion H as [|? ? Hv Hrest]; subst. simpl in Hv.
  destruct v as [o|l]; [now apply IH|].
  destruct l; [congruence | simpl; lia].
Qed.

Lemma planner_returns_k_indices_witness :
  dict_get [(sk "x", iv 10); (tk ["a"; "b"], lv [4; 1]%Z)] (sk "x")
  = Ok (iv 10)
  /\ scalar_or_nonempty_ints (iv 10) = true
  /\ exists order,
       configure_scaling_policy
         [(sk "x", iv 10); (tk ["a"; "b"], lv [4; 1]%Z)] (sk "x") = Ok order
       /\ length order = 2.
Proof.
  split; [reflexivity|]. split; [reflexivity|].
  destruct (@planner_returns_k_indices
              [(sk "x", iv 10); (tk ["a"; "b"], lv [4; 1]%Z)] (sk "x")
              (iv 10) eq_refl eq_refl) as [order [Ho [Hl _]]].
  exists order. split; [exact Ho | exact Hl].
Defined.

(** A driver that is not a key of the set makes the planner raise
    [KeyError]; and a scalar driver next to an empty list gets the empty
    sequence. *)
Lemma planner_absent_driver_raises :
  configure_scaling_policy [(sk "x", iv 1)] (sk "y") = Raise KeyError
  /\ configure_scaling_policy [(tk [], lv []); (sk "x", iv 1)] (sk "x")
     = Ok [].
Proof. split; reflexivity. Qed.

(** ** Which exceptions a stage may raise *)

Section RaisesOnly.

Variable P : pyexc -> Prop.

Lemma raises_only_ok (A : Type) (a : A) : raises_only P (Ok a).
Proof. intros e H; discriminate. Qed.

Lemma raises_only_raise (A : Type) (e : pyexc) :
  P e -> raises_only P (@Raise A e).
Proof. intros H e' E. now inversion E; subst. Qed.

Lemma raises_only_bind (A B : Type) (c : result A) (f : A -> result B) :
  raises_only P c -> (forall a, raises_only P (f a)) ->
  raises_only P (bind c f).
Proof.
  intros Hc Hf e H. destruct c as [a|e']; simpl in H.
  - exact (Hf a e H).
  - apply Hc. congruence.
Qed.

Lemma raises_only_foldM (A S : Type) (f : S -> A -> result S)
  (l : list A) (s : S) :
  (forall s' x, raises_only P (f s' x)) -> raises_only P (foldM f l s).
Proof.
  intro Hf. revert s. induction l as [|x l IH]; intro s; simpl.
  - apply raises_only_ok.
  - apply raises_only_bind; [apply Hf | intro a; apply IH].
Qed.

Lemma raises_only_mapM (A B : Type) (f : A -> result B) (l : list A) :
  (forall x, raises_only P (f x)) -> raises_only P (mapM f l).
Proof.
  intro Hf. induction l as [|x l IH]; simpl.
  - apply raises_only_ok.
  - apply raises_only_bind; [apply Hf | intro y].
    apply raises_only_bind; [exact IH | intro ys; apply raises_only_ok].
Qed.

End RaisesOnly.

Create HintDb raises.

#[local] Hint Resolve raises_only_ok raises_only_raise : raises.

Lemma not_runtime_not_driver (A : Type) (c : result A) :
  raises_only not_runtime c -> raises_only not_driver_error c.
Proof.
  intros H e E N. subst e. exact (H _ E).
Qed.

Lemma py_last_raises (A : Type) (l : list A) :
  raises_only not_runtime (py_last l).
Proof.
  induction l as [|x [|y l] IH]; simpl; auto with raises.
  apply raises_only_raise. exact I.
Qed.

Lemma py_min_raises (l : list pyobj) : raises_only not_runtime (py_min l).
Proof.
  destruct l as [|x l]; simpl; [apply raises_only_raise; exact I|].
  revert x. induction l as [|y l IH]; intro x; simpl; auto with raises.
  apply raises_only_bind; [|intro b; apply IH].
  destruct y, x; simpl; auto with raises; apply raises_only_raise; exact I.
Qed.

Lemma py_index_raises (l : list pyobj) (m : pyobj) :
  raises_only not_runtime (py_index l m).
Proof.
  induction l as [|x l IH]; simpl; [apply raises_only_raise; exact I|].
  destruct (pyobj_eqb x m); auto with raises.
  apply raises_only_bind; [exact IH | auto with raises].
Qed.

Lemma dict_get_raises (V : Type) (d : dict V) (k : pykey) :
  raises_only not_runtime (dict_get d k).
Proof.
  induction d as [|[k' v] d IH]; simpl; [apply raises_only_raise; exact I|].
  destruct (pykey_eqb k' k); auto with raises.
Qed.

Lemma configure_scaling_policy_raises (vars : dict pyval) (d : pykey) :
  raises_only not_runtime (configure_scaling_policy vars d).
Proof.
  unfold configure_scaling_policy.
  apply raises_only_bind; [apply dict_get_raises | intro val].
  apply raises_only_bind; [|auto with raises].
  destruct val as [o|l]; auto with raises.
  apply raises_only_bind; [apply py_min_raises | intro; apply py_index_raises].
Qed.

Lemma order_at_raises (order : list nat) (e : nat) :
  raises_only not_runtime (order_at order e).
Proof.
  unfold order_at. destruct (length order); [apply raises_only_raise; exact I|].
  destruct (nth_error order _); auto with raises.
  apply raises_only_raise; exact I.
Qed.

Lemma scale_dims_raises (order : list nat) (f : Z) (e i : nat)
  (param : list (list pyobj)) :
  raises_only not_runtime (scale_dims order f e i param).
Proof.
  revert i. induction param as [|p rest IH]; intro i; simpl; auto with raises.
  apply raises_only_bind; [apply order_at_raises | intro d].
  apply raises_only_bind; [apply py_last_raises | intro x].
  apply raises_only_bind; [apply IH | auto with raises].
Qed.

Lemma scale_param_raises (order : list nat) (f : Z) (e : nat)
  (param : list (list pyobj)) :
  raises_only not_runtime (scale_param order f e param).
Proof.
  unfold scale_param. destruct param as [|p0 [|p1 rest]].
  - apply scale_dims_raises.
  - apply raises_only_bind; [apply py_last_raises | auto with raises].
  - apply scale_dims_raises.
Qed.

Lemma scale_loop_raises (order : list nat) (f : Z) (n : nat)
  (scaled : dict (list (list pyobj))) :
  raises_only not_runtime (scale_loop order f n scaled).
Proof.
  unfold scale_loop. apply raises_only_foldM. intros s e.
  unfold scale_step. apply raises_only_mapM. intros [k p]. simpl.
  apply raises_only_bind; [apply scale_param_raises | auto with raises].
Qed.

Lemma reduce_acc_raises (acc : list pyobj) :
  raises_only not_runtime (reduce_acc acc).
Proof.
  unfold reduce_acc. destruct (Nat.ltb 1 (length acc)); auto with raises.
  destruct acc; auto with raises. apply raises_only_raise; exact I.
Qed.

Lemma unpack_tuple_raises (t : list pyobj) (i : nat)
  (v : list (list pyobj)) (out : dict pyval) :
  raises_only not_runtime (unpack_tuple t i v out).
Proof.
  revert i out. induction t as [|name t IH]; intros i out; simpl;
    auto with raises.
  destruct (nth_error v i); [|apply raises_only_raise; exact I].
  apply raises_only_bind; [apply reduce_acc_raises | intro r; apply IH].
Qed.

Lemma unpack_raises (scaled : dict (list (list pyobj))) :
  raises_only not_runtime (unpack scaled).
Proof.
  unfold unpack. apply raises_only_foldM. intros out [k v]. simpl.
  destruct k as [o|t]; [|apply unpack_tuple_raises].
  destruct v; [apply raises_only_raise; exact I|].
  apply raises_only_bind; [apply reduce_acc_raises | auto with raises].
Qed.

Lemma check_item_raises (st : option nat) (kv : pykey * pyval) :
  raises_only not_driver_error (check_item st kv).
Proof.
  destruct kv as [k v]. unfold check_item.
  assert (D : forall A (m : string),
             m <> msg_invalid_driver ->
             raises_only not_driver_error (@Raise A (RuntimeError m))).
  { intros A m Hm. apply raises_only_raise. unfold not_driver_error.
    congruence. }
  destruct k as [[z|s]|t].
  - apply D. discriminate.
  - destruct v as [[z|s']|l]; auto with raises; apply D; discriminate.
  - destruct (forallb is_str t); [|apply D; discriminate].
    destruct v as [o|l]; [apply D; discriminate|].
    destruct (forallb is_int l); [|apply D; discriminate].
    destruct (negb (Nat.eqb (length t) (length l))); [apply D; discriminate|].
    match goal with |- context [if negb ?b then _ else _] => destruct b end;
      simpl; auto with raises. apply D; discriminate.
Qed.

Lemma check_variables_raises (vars : dict pyval) :
  raises_only not_driver_error (check_variables vars).
Proof.
  unfold check_variables. apply raises_only_foldM.
  intros; apply check_item_raises.
Qed.

(** What follows the driver check never raises the invalid-driver error. *)

Lemma after_driver_check_raises (vars : dict pyval) (f : Z) (n : nat)
  (driver : pykey) :
  raises_only not_driver_error
    (_ <- check_variables vars ;;
     scaling_order_index <- configure_scaling_policy vars driver ;;
     scaled_variables <-
       scale_loop scaling_order_index f n (seed_variables vars) ;;
     unpack scaled_variables).
Proof.
  apply raises_only_bind; [apply check_variables_raises | intros _].
  apply not_runtime_not_driver.
  apply raises_only_bind; [apply configure_scaling_policy_raises | intro o].
  apply raises_only_bind; [apply scale_loop_raises | intro s].
  apply unpack_raises.
Qed.

(** C5, as amended. On a variable set that is not empty, the sweep fails
    with the invalid-driver error exactly when the resolved driver is not a
    key of the set, the resolved driver being the supplied one when its
    truth value is true (not the empty string, the empty tuple or 0) and
    the first key otherwise; that is, exactly when a driver with a true
    truth value is supplied that is not a key of the set. *)
Theorem invalid_driver_iff
  (vars : dict pyval) (f n : Z) (d : option pykey) (Hne : vars <> []) :
  (scale_experiment_variables vars f n d
   = Raise (RuntimeError msg_invalid_driver)
   <-> exists k, resolve_driver vars d = Ok k /\ dict_mem vars k = false)
  /\ (scale_experiment_variables vars f n d
      = Raise (RuntimeError msg_invalid_driver)
      <-> exists k,
            d = Some k /\ key_truthy k = true /\ dict_mem vars k = false).
Proof.
  destruct vars as [|[k0 v0] rest]; [congruence|].
  assert (First : dict_mem ((k0, v0) :: rest) k0 = true).
  { simpl. now rewrite pykey_eqb_refl. }
  assert (Res : forall k,
             resolve_driver ((k0, v0) :: rest) d = Ok k ->
             dict_mem ((k0, v0) :: rest) k = false ->
             d = Some k /\ key_truthy k = true).
  { intros k R M. unfold resolve_driver in R. destruct d as [k'|].
    - destruct (key_truthy k') eqn:T.
      + inversion R; subst. auto.
      + cbn [dict_first_key] in R. inversion R; subst. congruence.
    - cbn [dict_first_key] in R. inversion R; subst. congruence. }
  assert (Main : scale_experiment_variables ((k0, v0) :: rest) f n d
                 = Raise (RuntimeError msg_invalid_driver)
                 <-> exists k,
                       resolve_driver ((k0, v0) :: rest) d = Ok k
                       /\ dict_mem ((k0, v0) :: rest) k = false).
  { unfold scale_experiment_variables. split.
    - intro H.
      destruct (resolve_driver ((k0, v0) :: rest) d) as [k|e] eqn:R.
      + exists k. split; [reflexivity|]. cbn [bind] in H.
        destruct (dict_mem ((k0, v0) :: rest) k) eqn:M; [|reflexivity].
        exfalso. cbn [negb] in H.
        exact (@after_driver_check_raises _ f _ k _ H eq_refl).
      + exfalso. unfold resolve_driver in R.
        destruct d as [k'|]; [destruct (key_truthy k')|]; discriminate.
    - intros [k [R M]]. rewrite R. cbn [bind]. now rewrite M. }
  split; [exact Main|]. rewrite Main. split.
  - intros [k [R M]]. exists k. destruct (Res k R M). auto.
  - intros [k [Ed [T M]]]. exists k. subst d. unfold resolve_driver.
    rewrite T. auto.
Qed.

Lemma invalid_driver_iff_witness :
  [(sk "x", iv 1)] <> []
  /\ scale_experiment_variables [(sk "x", iv 1)] 2 3 (Some (sk "missing"))
     = Raise (RuntimeError msg_invalid_driver).
Proof.
  assert (N : [(sk "x", iv 1)] <> []) by discriminate.
  split; [exact N|].
  apply (proj2 (proj2 (@invalid_driver_iff [(sk "x", iv 1)] 2 3
                         (Some (sk "missing")) N))).
  exists (sk "missing"). repeat split.
Defined.

(** The supplied driver [""] is not a key of the set, yet the sweep does not
    fail: the first key ["x"] takes its place. *)
Lemma empty_string_driver_is_replaced :
  [(sk "x", iv 1)] <> []
  /\ dict_mem [(sk "x", iv 1)] (sk "") = false
  /\ scale_experiment_variables [(sk "x", iv 1)] 2 3 (Some (sk ""))
     = Ok [(sk "x", lv [1; 2; 4]%Z)]
  /\ scale_experiment_variables [(sk "x", iv 1)] 2 3 (Some (sk ""))
     <> Raise (RuntimeError msg_invalid_driver).
Proof.
  split; [discriminate|]. split; [reflexivity|]. split; [reflexivity|].
  vm_compute. discriminate.
Qed.

(** ** The checking loop *)

Lemma foldM_ok_each (A S : Type) (f : S -> A -> result S)
  (l : list A) (s s' : S) :
  foldM f l s = Ok s' ->
  Forall (fun x => exists s1 s2, f s1 x = Ok s2) l.
Proof.
  revert s. induction l as [|x l IH]; intros s H; [constructor|].
  simpl in H. destruct (f s x) as [s1|e] eqn:E; [|discriminate].
  constructor; [now exists s, s1 | exact (IH _ H)].
Qed.

Lemma check_item_ok_typed (st st' : option nat) (kv : pykey * pyval) :
  check_item st kv = Ok st' -> item_typed kv = true.
Proof.
  destruct kv as [k v]. unfold check_item, item_typed.
  destruct k as [[z|s]|t]; [discriminate | |].
  - destruct v as [[z|s']|l]; [reflexivity | discriminate | discriminate].
  - destruct (forallb is_str t); [|discriminate].
    destruct v as [o|l]; [discriminate|].
    destruct (forallb is_int l); [|discriminate].
    destruct (Nat.eqb (length t) (length l)); [reflexivity | discriminate].
Qed.

Lemma check_variables_ok_typed (vars : dict pyval) (st : option nat) :
  check_variables vars = Ok st ->
  Forall (fun kv => item_typed kv = true) vars.
Proof.
  intro H. apply foldM_ok_each in H.
  eapply Forall_impl; [|exact H].
  intros kv [s1 [s2 E]]. exact (check_item_ok_typed _ _ E).
Qed.

(** On well-formed items the checking loop either raises the
    dimension-mismatch error or ends with the one length that all tuple
    items share. *)

Lemma check_well_formed (vars : dict pyval) (st : option nat) :
  Forall (fun kv => item_well_formed kv = true) vars ->
  dims_state_ok st ->
  foldM check_item vars st = Raise (RuntimeError msg_dims)
  \/ exists st',
       foldM check_item vars st = Ok st'
       /\ (forall n, st = Some n -> st' = Some n)
       /\ (forall t l, In (KTuple t, VList l) vars -> st' = Some (length l)).
Proof.
  intro Hwf. revert st.
  induction Hwf as [|[k v] rest Hkv Hrest IH]; intros st Hst.
  - right. exists st. repeat split; [auto | intros t l []].
  - unfold item_well_formed in Hkv. apply andb_true_iff in Hkv.
    destruct Hkv as [Hty Hnz]. cbn [foldM].
    destruct k as [[z|s]|t]; [discriminate | |].
    + destruct v as [[z|s']|l]; try discriminate.
      cbn [check_item bind].
      destruct (IH st Hst) as [E|[st' [E [Hkeep Hall]]]]; [now left|].
      right. exists st'. repeat split; [exact E | exact Hkeep |].
      intros t l [Hin|Hin]; [discriminate | exact (Hall _ _ Hin)].
    + destruct v as [o|l]; [discriminate|].
      cbn [item_typed] in Hty.
      apply andb_true_iff in Hty. destruct Hty as [Hty Hlen].
      apply andb_true_iff in Hty. destruct Hty as [Hstr Hint].
      apply negb_true_iff in Hnz. apply Nat.eqb_neq in Hnz.
      cbn [check_item]. rewrite Hstr, Hint, Hlen. cbn [negb].
      destruct st as [n|]; cbn [n_dims_unset].
      * simpl in Hst. destruct (Nat.eqb_spec n 0) as [Z|NZ]; [lia|].
        destruct (Nat.eqb_spec (length l) n) as [E|N]; cbn [negb bind].
        -- destruct (IH (Some n) Hst) as [R|[st' [R [Hkeep Hall]]]];
             [now left|].
           right. exists st'. repeat split; [exact R | exact Hkeep |].
           intros t' l' [Hin|Hin]; [|exact (Hall _ _ Hin)].
           inversion Hin; subst. now apply Hkeep.
        -- now left.
      * rewrite Nat.eqb_refl. cbn [negb bind].
        assert (Hst' : dims_state_ok (Some (length l))) by (simpl; lia).
        destruct (IH (Some (length l)) Hst') as [R|[st' [R [Hkeep Hall]]]];
          [now left|].
        right. exists st'.
        repeat split; [exact R | intros n Hn; discriminate |].
        intros t' l' [Hin|Hin]; [|exact (Hall _ _ Hin)].
        inversion Hin; subst. now apply Hkeep.
Qed.

(** C6, as amended. When every item of the set is well formed on its own (a
    string name with an integer, or a tuple of one or more strings with a
    list of as many integers), the driver resolves to a key of the set, and
    two tuple items have lists of different lengths, the sweep fails with
    the dimension-mismatch error. *)
Theorem dimension_mismatch_detected
  (vars : dict pyval) (f n : Z) (d : option pykey)
  (t1 t2 : list pyobj) (l1 l2 : list pyobj) (k : pykey)
  (Hwf : Forall (fun kv => item_well_formed kv = true) vars)
  (Hdriver : resolve_driver vars d = Ok k)
  (Hkey : dict_mem vars k = true)
  (Hin1 : In (KTuple t1, VList l1) vars)
  (Hin2 : In (KTuple t2, VList l2) vars)
  (Hlen : length l1 <> length l2) :
  scale_experiment_variables vars f n d = Raise (RuntimeError msg_dims).
Proof.
  unfold scale_experiment_variables.
  destruct vars as [|kv rest]; [contradiction|].
  rewrite Hdriver. cbn [bind]. rewrite Hkey. cbn [negb].
  unfold check_variables.
  destruct (@check_well_formed (kv :: rest) None Hwf I)
    as [E|[st' [E [_ Hall]]]].
  - now rewrite E.
  - exfalso. pose proof (Hall _ _ Hin1) as E1.
    pose proof (Hall _ _ Hin2) as E2. congruence.
Qed.

Lemma dimension_mismatch_detected_witness :
  Forall (fun kv => item_well_formed kv = true)
    [(tk ["a"], lv [1]%Z); (tk ["b"; "c"], lv [1; 2]%Z)]
  /\ resolve_driver [(tk ["a"], lv [1]%Z); (tk ["b"; "c"], lv [1; 2]%Z)] None
     = Ok (tk ["a"])
  /\ scale_experiment_variables
       [(tk ["a"], lv [1]%Z); (tk ["b"; "c"], lv [1; 2]%Z)] 2 3 None
     = Raise (RuntimeError msg_dims).
Proof.
  assert (W : Forall (fun kv => item_well_formed kv = true)
                [(tk ["a"], lv [1]%Z); (tk ["b"; "c"], lv [1; 2]%Z)]).
  { repeat constructor. }
  split; [exact W|]. split; [reflexivity|].
  apply (@dimension_mismatch_detected
           [(tk ["a"], lv [1]%Z); (tk ["b"; "c"], lv [1; 2]%Z)] 2 3 None
           [PStr "a"] [PStr "b"; PStr "c"] [PInt 1] [PInt 1; PInt 2]
           (tk ["a"]) W eq_refl eq_refl).
  - left; reflexivity.
  - right; left; reflexivity.
  - simpl. lia.
Defined.

(** The set holds the tuple items [("a",): [1]] and [("b", "c"): [1, 2]] of
    different lengths, yet the error is the one of the string item that
    comes first. *)
Lemma dimension_mismatch_masked_by_earlier_item :
  In (tk ["a"], lv [1]%Z)
    [(sk "s", lv [7]%Z); (tk ["a"], lv [1]%Z); (tk ["b"; "c"], lv [1; 2]%Z)]
  /\ In (tk ["b"; "c"], lv [1; 2]%Z)
       [(sk "s", lv [7]%Z); (tk ["a"], lv [1]%Z);
        (tk ["b"; "c"], lv [1; 2]%Z)]
  /\ scale_experiment_variables
       [(sk "s", lv [7]%Z); (tk ["a"], lv [1]%Z);
        (tk ["b"; "c"], lv [1; 2]%Z)] 2 3 None
     = Raise (RuntimeError msg_str_int)
  /\ scale_experiment_variables
       [(sk "s", lv [7]%Z); (tk ["a"], lv [1]%Z);
        (tk ["b"; "c"], lv [1; 2]%Z)] 2 3 None
     <> Raise (RuntimeError msg_dims).
Proof.
  split; [right; left; reflexivity|].
  split; [right; right; left; reflexivity|].
  split; [reflexivity | vm_compute; discriminate].
Qed.

(** A tuple item of length 0 leaves [n_dims] at 0, which the next item
    takes for unset: the lengths 0 and 2 pass the check together. *)
Lemma zero_length_item_passes_check :
  check_variables [(tk [], lv []); (tk ["a"; "b"], lv [1; 2]%Z)]
  = Ok (Some 2)
  /\ scale_experiment_variables
       [(tk [], lv []); (tk ["a"; "b"], lv [1; 2]%Z)] 2 1
       (Some (tk ["a"; "b"]))
     = Ok [(sk "a", iv 1); (sk "b", iv 2)]
  /\ scale_experiment_variables
       [(tk [], lv []); (tk ["a"; "b"], lv [1; 2]%Z)] 2 3
       (Some (tk ["a"; "b"]))
     = Raise ZeroDivisionError.
Proof. repeat split. Qed.

(** ** A sweep without experiments *)

Lemma dict_get_In (V : Type) (d : dict V) (k : pykey) (v : V) :
  dict_get d k = Ok v -> exists k', In (k', v) d.
Proof.
  induction d as [|[k0 v0] d IH]; simpl; [discriminate|].
  destruct (pykey_eqb k0 k).
  - intro H. inversion H; subst. exists k0. now left.
  - intro H. destruct (IH H) as [k' Hin]. exists k'. now right.
Qed.

Lemma dict_union_app (V : Type) (d a b : dict V) :
  dict_union d (a ++ b) = dict_union (dict_union d a) b.
Proof. unfold dict_union. apply fold_left_app. Qed.

Lemma dict_set_fresh (V : Type) (d : dict V) (k : pykey) (v : V) :
  ~ In k (dict_keys d) -> dict_set d k v = d ++ [(k, v)].
Proof.
  induction d as [|[k0 v0] d IH]; simpl; intro H; [reflexivity|].
  destruct (pykey_eqb k0 k) eqn:E.
  - apply pykey_eqb_eq in E. tauto.
  - rewrite IH; [reflexivity | tauto].
Qed.

Lemma dict_union_fresh (V : Type) (d items : dict V) :
  NoDup (dict_keys (d ++ items)) -> dict_union d items = d ++ items.
Proof.
  revert d. induction items as [|[k v] items IH]; intros d H.
  - now rewrite app_nil_r.
  - rewrite dict_union_cons. cbn [fst snd].
    assert (Hfresh : ~ In k (dict_keys d)).
    { unfold dict_keys in *. rewrite map_app in H. cbn [map fst] in H.
      apply NoDup_remove_2 in H. intro Hin. apply H.
      apply in_or_app. now left. }
    rewrite (dict_set_fresh _ _ v Hfresh), IH.
    + now rewrite <- app_assoc.
    + now rewrite <- app_assoc.
Qed.

Lemma unpack_tuple_seed (t l : list pyobj) (pre : list (list pyobj))
  (out : dict pyval) :
  length t = length l ->
  unpack_tuple t (length pre) (pre ++ map (fun v => [v]) l) out
  = Ok (dict_union out (combine (map KObj t) (map VObj l))).
Proof.
  revert l pre out. induction t as [|name t IH]; intros l pre out Hlen.
  - reflexivity.
  - destruct l as [|x l]; [discriminate|]. cbn [unpack_tuple map].
    rewrite nth_error_app2 by lia. rewrite Nat.sub_diag. cbn [nth_error].
    cbn [reduce_acc length Nat.ltb Nat.leb bind].
    replace (S (length pre)) with (length (pre ++ [[x]]))
      by (rewrite length_app; simpl; lia).
    replace (pre ++ [x] :: map (fun v => [v]) l)
      with ((pre ++ [[x]]) ++ map (fun v => [v]) l)
      by (now rewrite <- app_assoc).
    rewrite IH by (simpl in Hlen; lia). reflexivity.
Qed.

Lemma unpack_item_seed (out : dict pyval) (kv : pykey * pyval) :
  item_typed kv = true ->
  unpack_item out (fst kv, seed (snd kv))
  = Ok (dict_union out (base_items_of kv)).
Proof.
  destruct kv as [k v]. unfold item_typed. cbn [fst snd].
  destruct k as [[z|s]|t]; [discriminate | |].
  - destruct v as [[z|s']|l]; try discriminate. reflexivity.
  - destruct v as [o|l]; [discriminate|]. intro H.
    apply andb_true_iff in H. destruct H as [_ Hlen].
    apply Nat.eqb_eq in Hlen. cbn [unpack_item seed base_items_of].
    exact (@unpack_tuple_seed t l [] out Hlen).
Qed.

Lemma unpack_seed (vars : dict pyval) (out : dict pyval) :
  Forall (fun kv => item_typed kv = true) vars ->
  foldM unpack_item (seed_variables vars) out
  = Ok (dict_union out (base_items vars)).
Proof.
  intro H. revert out. induction H as [|kv rest Hkv Hrest IH]; intro out.
  - reflexivity.
  - cbn [seed_variables map foldM]. rewrite (unpack_item_seed out _ Hkv).
    cbn [bind]. fold (seed_variables rest). rewrite IH.
    unfold base_items. cbn [flat_map]. now rewrite dict_union_app.
Qed.

Lemma typed_value_accepted (vars : dict pyval) (k : pykey) (val : pyval) :
  Forall (fun kv => item_typed kv = true) vars ->
  dict_get vars k = Ok val -> val <> VList [] ->
  scalar_or_nonempty_ints val = true.
Proof.
  intros Hty Hget Hne. destruct (dict_get_In _ _ Hget) as [k' Hin].
  rewrite Forall_forall in Hty. specialize (Hty _ Hin).
  unfold item_typed in Hty. destruct val as [o|l]; [reflexivity|].
  destruct k' as [[z|s]|t]; try discriminate.
  apply andb_true_iff in Hty. destruct Hty as [Hty _].
  apply andb_true_iff in Hty. destruct Hty as [_ Hint].
  simpl. rewrite Hint. destruct l; [congruence | reflexivity].
Qed.

Lemma base_items_bare (vars : dict pyval) :
  Forall (fun kv => item_typed kv = true) vars ->
  Forall (fun kv => exists z, snd kv = VObj (PInt z)) (base_items vars).
Proof.
  intro H. unfold base_items. rewrite Forall_flat_map.
  eapply Forall_impl; [|exact H].
  intros [k v] Hty. unfold item_typed in Hty.
  destruct k as [[z|s]|t]; [discriminate | |].
  - destruct v as [[z|s']|l]; try discriminate.
    constructor; [now exists z | constructor].
  - destruct v as [o|l]; [discriminate|]. cbn [base_items_of].
    apply andb_true_iff in Hty. destruct Hty as [Hty _].
    apply andb_true_iff in Hty. destruct Hty as [_ Hint].
    destruct (all_int_map _ Hint) as [zs E]. subst l. clear.
    revert zs. induction t as [|x t IH]; intros [|z zs]; simpl;
      try constructor; [now exists z | apply IH].
Qed.

(** With a count of at most 1 the experiment loop does not run, and a set
    that passes the check comes back item by item. *)

Lemma sweep_without_experiments
  (vars : dict pyval) (f c : Z) (d : option pykey)
  (st : option nat) (k : pykey) (val : pyval) :
  (c <= 1)%Z ->
  check_variables vars = Ok st ->
  resolve_driver vars d = Ok k ->
  dict_get vars k = Ok val ->
  val <> VList [] ->
  scale_experiment_variables vars f c d
  = Ok (dict_union [] (base_items vars)).
Proof.
  intros Hc Hcheck Hres Hget Hne.
  pose proof (check_variables_ok_typed _ Hcheck) as Hty.
  pose proof (typed_value_accepted _ Hty Hget Hne) as Hacc.
  destruct (configure_scaling_policy_ok _ _ Hget Hacc) as [start [_ Hconf]].
  unfold scale_experiment_variables.
  destruct vars as [|kv rest]; [discriminate|].
  rewrite Hres. cbn [bind].
  assert (M : dict_mem (kv :: rest) k = true).
  { apply dict_mem_get. now exists val. }
  rewrite M. cbn [negb]. rewrite Hcheck. cbn [bind]. rewrite Hconf.
  cbn [bind]. replace (Z.to_nat (c - 1)) with 0 by lia.
  cbn [scale_loop seq foldM bind]. unfold unpack.
  now apply unpack_seed.
Qed.

(** C8, as amended. For a set that passes the check and a driver that
    resolves to a key whose value is not the empty list, the sweep with
    count 1 returns, whatever the factor, the dictionary of the base items:
    every component of a tuple name and every scalar name with its base
    value as a bare integer; when these names are pairwise distinct the
    result is this list of items, in order. *)
Theorem single_experiment_returns_base
  (vars : dict pyval) (f : Z) (d : option pykey)
  (st : option nat) (k : pykey) (val : pyval)
  (Hcheck : check_variables vars = Ok st)
  (Hdriver : resolve_driver vars d = Ok k)
  (Hget : dict_get vars k = Ok val)
  (Hval : val <> VList []) :
  scale_experiment_variables vars f 1 d
  = Ok (dict_union [] (base_items vars))
  /\ Forall (fun kv => exists z, snd kv = VObj (PInt z)) (base_items vars)
  /\ (NoDup (dict_keys (base_items vars)) ->
      scale_experiment_variables vars f 1 d = Ok (base_items vars)).
Proof.
  assert (E : scale_experiment_variables vars f 1 d
              = Ok (dict_union [] (base_items vars))).
  { eapply sweep_without_experiments; eauto. lia. }
  split; [exact E|]. split.
  - apply base_items_bare. exact (check_variables_ok_typed _ Hcheck).
  - intro ND. rewrite E. f_equal. now apply (@dict_union_fresh _ []).
Qed.

Lemma single_experiment_returns_base_witness :
  check_variables [(tk ["n"; "r"], lv [1; 4]%Z); (sk "x", iv 10)]
  = Ok (Some 2)
  /\ resolve_driver [(tk ["n"; "r"], lv [1; 4]%Z); (sk "x", iv 10)] None
     = Ok (tk ["n"; "r"])
  /\ scale_experiment_variables
       [(tk ["n"; "r"], lv [1; 4]%Z); (sk "x", iv 10)] 7 1 None
     = Ok (dict_union [] [(sk "n", iv 1); (sk "r", iv 4); (sk "x", iv 10)]).
Proof.
  split; [reflexivity|]. split; [reflexivity|].
  refine (proj1 (@single_experiment_returns_base
                   [(tk ["n"; "r"], lv [1; 4]%Z); (sk "x", iv 10)] 7 None
                   (Some 2) (tk ["n"; "r"]) (lv [1; 4]%Z)
                   eq_refl eq_refl eq_refl _)).
  discriminate.
Defined.

(** The set [{(): []}] passes the check, and with count 1 the sweep raises
    [ValueError] instead of returning a result. *)
Lemma single_experiment_empty_tuple_raises :
  check_variables [(tk [], lv [])] = Ok (Some 0)
  /\ scale_experiment_variables [(tk [], lv [])] 2 1 None = Raise ValueError.
Proof. split; reflexivity. Qed.

(** C10, as amended. A count of 0 or less gives what count 1 gives, on every
    input; and for a set that passes the check and a driver that resolves
    to a key whose value is not the empty list, this is the dictionary of
    the base items, without error. *)
Theorem nonpositive_count_as_one
  (vars : dict pyval) (f c : Z) (d : option pykey) (Hc : (c <= 0)%Z) :
  scale_experiment_variables vars f c d
  = scale_experiment_variables vars f 1 d
  /\ (forall st k val,
         check_variables vars = Ok st ->
         resolve_driver vars d = Ok k ->
         dict_get vars k = Ok val ->
         val <> VList [] ->
         scale_experiment_variables vars f c d
         = Ok (dict_union [] (base_items vars))).
Proof.
  split.
  - unfold scale_experiment_variables.
    replace (Z.to_nat (c - 1)) with (Z.to_nat (1 - 1)) by lia. reflexivity.
  - intros st k val Hcheck Hres Hget Hne.
    eapply sweep_without_experiments; eauto. lia.
Qed.

Lemma nonpositive_count_as_one_witness :
  (-3 <= 0)%Z
  /\ scale_experiment_variables
       [(tk ["n"; "r"], lv [1; 4]%Z); (sk "x", iv 10)] 7 (-3) None
     = scale_experiment_variables
         [(tk ["n"; "r"], lv [1; 4]%Z); (sk "x", iv 10)] 7 1 None.
Proof.
  assert (H : (-3 <= 0)%Z) by lia.
  split; [exact H|].
  exact (proj1 (@nonpositive_count_as_one
                  [(tk ["n"; "r"], lv [1; 4]%Z); (sk "x", iv 10)] 7 (-3)
                  None H)).
Defined.

(** With count 0 the set [{(): []}], which passes the check, makes the
    sweep raise [ValueError]. *)
Lemma nonpositive_count_empty_tuple_raises :
  check_variables [(tk [], lv [])] = Ok (Some 0)
  /\ scale_experiment_variables [(tk [], lv [])] 2 0 None = Raise ValueError.
Proof. split; reflexivity. Qed.

(** ** Round robin over the dimensions *)

Lemma scaled_times_S start k p e :
  scaled_times start k p (S e)
  = scaled_times start k p e
    + (if Nat.eqb (selected_dim start k e) p then 1 else 0).
Proof.
  unfold scaled_times. rewrite seq_S, filter_app, length_app. cbn [filter].
  rewrite Nat.add_0_l. now destruct (Nat.eqb (selected_dim start k e) p).
Qed.

Lemma dim_values_S vals f start k p n :
  dim_values vals f start k p (S n)
  = dim_values vals f start k p n
    ++ [PInt (nth p vals 0 * f ^ Z.of_nat (scaled_times start k p (S n)))%Z].
Proof.
  unfold dim_values. rewrite (seq_S (S n) 0), map_app. reflexivity.
Qed.

Lemma dim_values_length vals f start k p n :
  length (dim_values vals f start k p n) = S n.
Proof. unfold dim_values. now rewrite length_map, length_seq. Qed.

Lemma py_last_app (A : Type) (l : list A) (x : A) : py_last (l ++ [x]) = Ok x.
Proof.
  induction l as [|a l IH]; [reflexivity|].
  cbn [app py_last]. destruct (l ++ [x]) eqn:E; [|exact IH].
  destruct l; discriminate.
Qed.

Lemma py_last_dim_values vals f start k p n :
  py_last (dim_values vals f start k p n)
  = Ok (PInt (nth p vals 0 * f ^ Z.of_nat (scaled_times start k p n))%Z).
Proof.
  unfold dim_values. rewrite seq_S, map_app. cbn [map].
  now rewrite py_last_app.
Qed.

Lemma order_at_rotation start k e :
  0 < k -> order_at (rotation start k) e = Ok (selected_dim start k e).
Proof.
  intro Hk. unfold order_at. rewrite rotation_length.
  destruct k as [|k]; [lia|]. cbv iota. unfold rotation.
  assert (Hlt : e mod S k < S k) by (apply Nat.mod_upper_bound; lia).
  rewrite (map_nth_error _ (e mod S k) (seq 0 (S k)) (d := e mod S k)).
  - reflexivity.
  - rewrite (nth_error_nth' _ 0) by (now rewrite length_seq).
    now rewrite seq_nth.
Qed.

Lemma scale_dims_map (order : list nat) (f : Z) (e d : nat)
  (h : nat -> list pyobj) (lst : nat -> pyobj) (m i : nat) :
  order_at order e = Ok d ->
  (forall p, py_last (h p) = Ok (lst p)) ->
  scale_dims order f e i (map h (seq i m))
  = Ok (map (fun p => h p ++ [if Nat.eqb p d then py_mul (lst p) f
                              else lst p])
          (seq i m)).
Proof.
  intros Hd Hlast. revert i. induction m as [|m IH]; intro i; [reflexivity|].
  cbn [seq map scale_dims]. rewrite Hd, Hlast. cbn [bind].
  rewrite IH. reflexivity.
Qed.

Lemma scale_param_dims (order : list nat) (f : Z) (e : nat)
  (param : list (list pyobj)) :
  length param <> 1 ->
  scale_param order f e param = scale_dims order f e 0 param.
Proof.
  destruct param as [|p0 [|p1 rest]]; simpl; intro H;
    [reflexivity | lia | reflexivity].
Qed.

Lemma dim_values_step vals f start k p e :
  dim_values vals f start k p e
  ++ [if Nat.eqb p (selected_dim start k e)
      then py_mul
             (PInt (nth p vals 0 * f ^ Z.of_nat (scaled_times start k p e))%Z)
             f
      else PInt (nth p vals 0 * f ^ Z.of_nat (scaled_times start k p e))%Z]
  = dim_values vals f start k p (S e).
Proof.
  rewrite dim_values_S, scaled_times_S. f_equal. f_equal.
  rewrite (Nat.eqb_sym p). destruct (Nat.eqb (selected_dim start k e) p).
  - cbn [py_mul]. f_equal.
    rewrite Nat2Z.inj_add, Z.pow_add_r by lia.
    change (Z.of_nat 1) with 1%Z. rewrite Z.pow_1_r. ring.
  - now rewrite Nat.add_0_r.
Qed.

(** One experiment takes the values up to [e] to the values up to [e+1]. *)

Lemma scale_param_step vals f start k e :
  1 <= k ->
  scale_param (rotation start k) f e
    (map (fun p => dim_values vals f start k p e) (seq 0 k))
  = Ok (map (fun p => dim_values vals f start k p (S e)) (seq 0 k)).
Proof.
  intro Hk. destruct (Nat.eq_dec k 1) as [E|N].
  - subst k. cbn [seq map scale_param]. rewrite py_last_dim_values.
    cbn [bind]. do 2 f_equal.
    rewrite <- dim_values_step.
    replace (selected_dim start 1 e) with 0
      by (unfold selected_dim; now rewrite !Nat.mod_1_r).
    reflexivity.
  - rewrite scale_param_dims by (now rewrite length_map, length_seq).
    rewrite (@scale_dims_map _ f e (selected_dim start k e) _
               (fun p => PInt (nth p vals 0
                               * f ^ Z.of_nat (scaled_times start k p e))%Z)).
    + f_equal. apply map_ext. intro p. apply dim_values_step.
    + apply order_at_rotation. lia.
    + intro p. apply py_last_dim_values.
Qed.

Lemma scale_loop_single (key : pykey) vals f start k :
  1 <= k ->
  forall m a,
    foldM (fun s e => scale_step (rotation start k) f e s) (seq a m)
      [(key, map (fun p => dim_values vals f start k p a) (seq 0 k))]
    = Ok [(key, map (fun p => dim_values vals f start k p (a + m)) (seq 0 k))].
Proof.
  intro Hk. induction m as [|m IH]; intro a.
  - now rewrite Nat.add_0_r.
  - cbn [seq foldM scale_step mapM fst snd].
    rewrite scale_param_step by exact Hk. cbn [bind].
    rewrite IH. now rewrite Nat.add_succ_r.
Qed.

Lemma map_nth_seq (A B : Type) (g : A -> B) (d : A) (l : list A) :
  map (fun p => g (nth p l d)) (seq 0 (length l)) = map g l.
Proof.
  induction l as [|x l IH]; [reflexivity|].
  cbn [length seq map nth]. f_equal.
  rewrite <- seq_shift, map_map. exact IH.
Qed.

Lemma seed_dim_values vals f start k :
  k = length vals ->
  seed (lv vals) = map (fun p => dim_values vals f start k p 0) (seq 0 k).
Proof.
  intro E. subst k. unfold seed, lv. rewrite map_map.
  rewrite <- (map_nth_seq (fun v => [PInt v]) 0%Z vals).
  apply map_ext. intro p. unfold dim_values. cbn [seq map].
  unfold scaled_times. cbn [seq filter length Z.of_nat].
  now rewrite Z.pow_0_r, Z.mul_1_r.
Qed.

Lemma unpack_tuple_lists (t : list pyobj) (accs pre : list (list pyobj))
  (out : dict pyval) :
  length t = length accs ->
  Forall (fun acc => 1 < length acc) accs ->
  unpack_tuple t (length pre) (pre ++ accs) out
  = Ok (dict_union out (combine (map KObj t) (map VList accs))).
Proof.
  revert accs pre out.
  induction t as [|name t IH]; intros accs pre out Hlen Hall.
  - reflexivity.
  - destruct accs as [|acc accs]; [discriminate|].
    inversion Hall as [|? ? Hacc Hrest]; subst.
    cbn [unpack_tuple map].
    rewrite nth_error_app2 by lia. rewrite Nat.sub_diag. cbn [nth_error].
    unfold reduce_acc. apply Nat.ltb_lt in Hacc. rewrite Hacc. cbn [bind].
    replace (S (length pre)) with (length (pre ++ [acc]))
      by (rewrite length_app; simpl; lia).
    replace (pre ++ acc :: accs) with ((pre ++ [acc]) ++ accs)
      by (now rewrite <- app_assoc).
    rewrite IH by (simpl in Hlen; auto; lia). reflexivity.
Qed.

Lemma unpack_tuple_all (t : list pyobj) (accs : list (list pyobj))
  (out : dict pyval) :
  length t = length accs ->
  Forall (fun acc => 1 < length acc) accs ->
  unpack_tuple t 0 accs out
  = Ok (dict_union out (combine (map KObj t) (map VList accs))).
Proof.
  intros Hlen Hall. exact (@unpack_tuple_lists t accs [] out Hlen Hall).
Qed.

(** *** Counting the experiments of one dimension *)

Lemma div_mod_succ (n k : nat) :
  0 < k ->
  (n mod k = k - 1 /\ S n / k = S (n / k) /\ S n mod k = 0)
  \/ (n mod k < k - 1 /\ S n / k = n / k /\ S n mod k = S (n mod k)).
Proof.
  intro Hk. pose proof (Nat.div_mod_eq n k) as E.
  pose proof (Nat.mod_upper_bound n k ltac:(lia)) as Hm.
  destruct (Nat.eq_dec (n mod k) (k - 1)) as [Hlast|Hnot].
  - left. split; [exact Hlast|]. split.
    + symmetry. apply (Nat.div_unique (S n) k (S (n / k)) 0); nia.
    + symmetry. apply (Nat.mod_unique (S n) k (S (n / k)) 0); nia.
  - right. split; [lia|]. split.
    + symmetry.
      apply (Nat.div_unique (S n) k (n / k) (S (n mod k))); nia.
    + symmetry.
      apply (Nat.mod_unique (S n) k (n / k) (S (n mod k))); nia.
Qed.

Lemma count_residue (k r n : nat) :
  r < k ->
  length (filter (fun e => Nat.eqb (e mod k) r) (seq 0 n))
  = n / k + (if Nat.ltb r (n mod k) then 1 else 0).
Proof.
  intro Hr. induction n as [|n IH].
  - cbn [seq filter length]. rewrite Nat.Div0.div_0_l, Nat.Div0.mod_0_l.
    reflexivity.
  - rewrite seq_S, filter_app, length_app, IH. cbn [filter].
    rewrite Nat.add_0_l.
    destruct (div_mod_succ n (k := k) ltac:(lia))
      as [[Hm [Hd Hm']]|[Hm [Hd Hm']]]; rewrite Hd, Hm'.
    + destruct (Nat.eqb_spec (n mod k) r) as [E|N];
        destruct (Nat.ltb_spec r (n mod k)); destruct (Nat.ltb_spec r 0);
        simpl; lia.
    + destruct (Nat.eqb_spec (n mod k) r) as [E|N];
        destruct (Nat.ltb_spec r (n mod k));
        destruct (Nat.ltb_spec r (S (n mod k))); simpl; lia.
Qed.

Lemma residue_selects start k p :
  p < k -> (start + residue_of start k p) mod k = p.
Proof.
  intro Hp. unfold residue_of.
  rewrite Nat.Div0.add_mod_idemp_r.
  pose proof (Nat.div_mod_eq start k) as E.
  pose proof (Nat.mod_upper_bound start k ltac:(lia)) as Hm.
  replace (start + (p + k - start mod k)) with (p + (S (start / k)) * k)
    by nia.
  rewrite Nat.Div0.mod_add. apply Nat.mod_small. exact Hp.
Qed.

Lemma selected_dim_residue start k p e :
  p < k ->
  Nat.eqb (selected_dim start k e) p
  = Nat.eqb (e mod k) (residue_of start k p).
Proof.
  intro Hp. unfold selected_dim.
  assert (Hr : residue_of start k p < k)
    by (unfold residue_of; apply Nat.mod_upper_bound; lia).
  assert (He : e mod k < k) by (apply Nat.mod_upper_bound; lia).
  destruct (Nat.eqb_spec (e mod k) (residue_of start k p)) as [E|N].
  - rewrite E, residue_selects by exact Hp. apply Nat.eqb_refl.
  - apply Nat.eqb_neq. intro H. apply N.
    apply (@mod_shift_inj start k); [exact He | exact Hr |].
    now rewrite residue_selects.
Qed.

Lemma scaled_times_count start k p n :
  p < k ->
  scaled_times start k p n
  = n / k + (if Nat.ltb (residue_of start k p) (n mod k) then 1 else 0).
Proof.
  intro Hp. unfold scaled_times.
  rewrite (filter_ext _ (fun e => Nat.eqb (e mod k) (residue_of start k p))).
  - apply count_residue. unfold residue_of. apply Nat.mod_upper_bound. lia.
  - intro e. now apply selected_dim_residue.
Qed.

(** Each dimension is scaled the floor or the ceiling of [n / k] times. *)

Lemma scaled_times_fair start k p n :
  p < k ->
  scaled_times start k p n = n / k
  \/ scaled_times start k p n = (n + k - 1) / k.
Proof.
  intro Hp. rewrite scaled_times_count by exact Hp.
  destruct (Nat.ltb_spec (residue_of start k p) (n mod k)) as [L|L];
    [right | left; lia].
  pose proof (Nat.div_mod_eq n k) as E.
  pose proof (Nat.mod_upper_bound n k ltac:(lia)) as Hm.
  apply (Nat.div_unique (n + k - 1) k (n / k + 1) (n mod k - 1)); nia.
Qed.

(** *** The product of the dimensions *)

Lemma product_one_hot (a : nat -> Z) (f : Z) (s m i : nat) :
  product (map (fun p => (a p * (if Nat.eqb s p then f else 1))%Z) (seq i m))
  = (product (map a (seq i m))
     * (if Nat.leb i s && Nat.ltb s (i + m) then f else 1))%Z.
Proof.
  revert i. induction m as [|m IH]; intro i.
  - cbn [seq map product fold_right]. rewrite Nat.add_0_r.
    destruct (Nat.leb_spec i s); destruct (Nat.ltb_spec s i); simpl; lia.
  - cbn [seq map]. unfold product in *. cbn [fold_right]. rewrite IH.
    destruct (Nat.eqb_spec s i) as [E|N].
    + subst s.
      destruct (Nat.leb_spec (S i) i); [lia|].
      destruct (Nat.leb_spec i i); [|lia].
      destruct (Nat.ltb_spec i (i + S m)); [|lia].
      simpl. ring.
    + destruct (Nat.leb_spec (S i) s); destruct (Nat.leb_spec i s);
        destruct (Nat.ltb_spec s (S i + m));
        destruct (Nat.ltb_spec s (i + S m)); simpl; try lia; ring.
Qed.

Lemma product_scaled vals f start k n :
  k = length vals -> 1 <= k ->
  product
    (map (fun p => (nth p vals 0 * f ^ Z.of_nat (scaled_times start k p n))%Z)
       (seq 0 k))
  = (product vals * f ^ Z.of_nat n)%Z.
Proof.
  intros Ek Hk. induction n as [|n IH].
  - rewrite Z.pow_0_r, Z.mul_1_r. subst k.
    rewrite <- (map_id vals) at 2.
    rewrite <- (map_nth_seq (fun v => v) 0%Z vals).
    f_equal. apply map_ext. intro p. unfold scaled_times.
    cbn [seq filter length Z.of_nat]. now rewrite Z.pow_0_r, Z.mul_1_r.
  - rewrite (map_ext _
               (fun p => (nth p vals 0
                          * f ^ Z.of_nat (scaled_times start k p n)
                          * (if Nat.eqb (selected_dim start k n) p
                             then f else 1))%Z)).
    + rewrite (product_one_hot
                 (fun p => (nth p vals 0
                            * f ^ Z.of_nat (scaled_times start k p n))%Z)).
      rewrite IH.
      assert (Hs : selected_dim start k n < k)
        by (unfold selected_dim; apply Nat.mod_upper_bound; lia).
      destruct (Nat.leb_spec 0 (selected_dim start k n)); [|lia].
      destruct (Nat.ltb_spec (selected_dim start k n) (0 + k)); [|lia].
      cbn [andb]. rewrite Nat2Z.inj_succ, Z.pow_succ_r by lia. ring.
    + intro p. rewrite scaled_times_S.
      destruct (Nat.eqb (selected_dim start k n) p).
      * rewrite Nat2Z.inj_add, Z.pow_add_r by lia.
        change (Z.of_nat 1) with 1%Z. now rewrite Z.pow_1_r, Z.mul_assoc.
      * now rewrite Nat.add_0_r, Z.mul_1_r.
Qed.

(** *** A single tuple variable *)

Lemma all_str_of_map (names : list string) :
  forallb is_str (map PStr names) = true.
Proof. induction names; simpl; auto. Qed.

Lemma map_PInt_inj (a b : list Z) : map PInt a = map PInt b -> a = b.
Proof.
  revert b. induction a as [|x a IH]; intros [|y b] H; try discriminate;
    [reflexivity|].
  inversion H; subst. f_equal. now apply IH.
Qed.

Lemma check_single_tuple (names : list string) (vals : list Z) :
  length names = length vals ->
  check_variables [(tk names, lv vals)] = Ok (Some (length vals)).
Proof.
  intro Hlen. unfold check_variables, tk, lv. cbn [foldM check_item].
  rewrite all_str_of_map, all_int_of_map, !length_map, Hlen, Nat.eqb_refl.
  cbn [negb n_dims_unset]. rewrite Nat.eqb_refl. reflexivity.
Qed.

(** C4. For a set made of one tuple variable with [k >= 1] components, taken
    as the driver, and a count with [count - 1 >= k], the sweep returns for
    each component [p] the values [base_p * factor ^ t] where [t] counts the
    earlier experiments that scaled [p]; at the last experiment [t] is the
    floor or the ceiling of [(count - 1) / k], and the product of the [k]
    last values is the product of the base values times
    [factor ^ (count - 1)]. *)
Theorem round_robin_fairness
  (names : list string) (vals : list Z) (f count : Z)
  (Hlen : length names = length vals)
  (Hk : 1 <= length vals)
  (Hcount : (Z.of_nat (length vals) <= count - 1)%Z) :
  exists start,
    first_min_index vals start
    /\ scale_experiment_variables [(tk names, lv vals)] f count
         (Some (tk names))
       = Ok (dict_union []
               (combine (map sk names)
                  (map (fun p =>
                          VList (dim_values vals f start (length vals) p
                                   (Z.to_nat (count - 1))))
                     (seq 0 (length vals)))))
    /\ (forall p,
           p < length vals ->
           py_last (dim_values vals f start (length vals) p
                      (Z.to_nat (count - 1)))
           = Ok (PInt (nth p vals 0
                       * f ^ Z.of_nat
                               (scaled_times start (length vals) p
                                  (Z.to_nat (count - 1))))%Z)
           /\ (scaled_times start (length vals) p (Z.to_nat (count - 1))
               = Z.to_nat (count - 1) / length vals
               \/ scaled_times start (length vals) p (Z.to_nat (count - 1))
                  = (Z.to_nat (count - 1) + length vals - 1) / length vals))
    /\ product
         (map (fun p =>
                 (nth p vals 0
                  * f ^ Z.of_nat
                          (scaled_times start (length vals) p
                             (Z.to_nat (count - 1))))%Z)
            (seq 0 (length vals)))
       = (product vals * f ^ (count - 1))%Z.
Proof.
  set (k := length vals) in *. set (n := Z.to_nat (count - 1)).
  assert (Hn : k <= n) by (unfold n; lia).
  assert (Hget : dict_get [(tk names, lv vals)] (tk names) = Ok (lv vals)).
  { cbn [dict_get]. now rewrite pykey_eqb_refl. }
  assert (Hacc : scalar_or_nonempty_ints (lv vals) = true).
  { unfold lv. cbn [scalar_or_nonempty_ints].
    rewrite all_int_of_map, length_map. fold k.
    destruct k; [lia | reflexivity]. }
  destruct (configure_scaling_policy_ok _ _ Hget Hacc)
    as [start [Hstart Hconf]].
  cbn [map snd first_list_len lv] in Hconf. rewrite length_map in Hconf.
  fold (lv vals) in Hconf. fold k in Hconf.
  destruct Hstart as [zs [Ezs Hmin]]. apply map_PInt_inj in Ezs. subst zs.
  exists start. split; [exact Hmin|]. split; [|split].
  - unfold scale_experiment_variables.
    assert (Htruthy : key_truthy (tk names) = true).
    { unfold tk. cbn [key_truthy]. rewrite length_map, Hlen. fold k.
      destruct k; [lia | reflexivity]. }
    unfold resolve_driver. rewrite Htruthy. cbn [bind].
    cbn [dict_mem]. rewrite pykey_eqb_refl. cbn [orb negb].
    rewrite (check_single_tuple names vals Hlen). cbn [bind].
    rewrite Hconf. cbn [bind]. fold n.
    unfold scale_loop. cbn [seed_variables map fst snd].
    rewrite (@seed_dim_values vals f start k eq_refl).
    rewrite (@scale_loop_single (tk names) vals f start k Hk n 0).
    cbn [bind Nat.add]. unfold unpack. cbn [foldM unpack_item tk].
    rewrite unpack_tuple_all.
    + cbn [bind]. rewrite !map_map. reflexivity.
    + now rewrite !length_map, length_seq.
    + apply Forall_forall. intros acc Hin. apply in_map_iff in Hin.
      destruct Hin as [p [E _]]. subst acc. rewrite dim_values_length. lia.
  - intros p Hp. split; [apply py_last_dim_values|].
    now apply scaled_times_fair.
  - rewrite (@product_scaled vals f start k n eq_refl Hk).
    unfold n. rewrite Z2Nat.id by lia. reflexivity.
Qed.

Lemma round_robin_fairness_witness :
  length ["a"; "b"] = length [3; 1]%Z
  /\ 1 <= length [3; 1]%Z
  /\ (Z.of_nat (length [3; 1]%Z) <= 4 - 1)%Z
  /\ exists start,
       first_min_index [3; 1]%Z start
       /\ scale_experiment_variables [(tk ["a"; "b"], lv [3; 1]%Z)] 2 4
            (Some (tk ["a"; "b"]))
          = Ok (dict_union []
                  (combine (map sk ["a"; "b"])
                     (map (fun p =>
                             VList (dim_values [3; 1]%Z 2 start 2 p 3))
                        (seq 0 2)))).
Proof.
  assert (H1 : length ["a"; "b"] = length [3; 1]%Z) by reflexivity.
  assert (H2 : 1 <= length [3; 1]%Z) by (simpl; lia).
  assert (H3 : (Z.of_nat (length [3; 1]%Z) <= 4 - 1)%Z) by (simpl; lia).
  split; [exact H1|]. split; [exact H2|]. split; [exact H3|].
  destruct (@round_robin_fairness ["a"; "b"] [3; 1]%Z 2 4 H1 H2 H3)
    as [start [Hmin [Hout _]]].
  exists start. split; [exact Hmin | exact Hout].
Defined.

(** The sweep of the witness, computed: dimension 1 holds the least value
    and is scaled first. *)
Example round_robin_run :
  scale_experiment_variables [(tk ["a"; "b"], lv [3; 1]%Z)] 2 4
    (Some (tk ["a"; "b"]))
  = Ok [(sk "a", lv [3; 3; 6; 6]%Z); (sk "b", lv [1; 2; 2; 4]%Z)].
Proof. reflexivity. Qed.

(** ** The sweep of a whole set *)

Lemma geometric_S (b f : Z) (n : nat) :
  geometric b f (S n)
  = geometric b f n ++ [PInt (b * f ^ Z.of_nat n * f)%Z].
Proof.
  unfold geometric. rewrite (seq_S (S n) 0), map_app. cbn [map Nat.add].
  do 3 f_equal. rewrite Nat2Z.inj_succ, Z.pow_succ_r by lia. ring.
Qed.

Lemma geometric_length (b f : Z) (n : nat) : length (geometric b f n) = S n.
Proof. unfold geometric. now rewrite length_map, length_seq. Qed.

Lemma py_last_geometric (b f : Z) (n : nat) :
  py_last (geometric b f n) = Ok (PInt (b * f ^ Z.of_nat n)%Z).
Proof.
  unfold geometric. rewrite seq_S, map_app. cbn [map Nat.add].
  now rewrite py_last_app.
Qed.

Lemma typed_ints (l : list pyobj) :
  forallb is_int l = true -> map PInt (map int_of l) = l.
Proof.
  induction l as [|x l IH]; simpl; intro H; [reflexivity|].
  apply andb_true_iff in H. destruct H as [Hx Hl].
  destruct x as [z|s]; [|discriminate]. simpl. now rewrite IH.
Qed.

Lemma all_dims_first (c : nat) (vars : dict pyval) :
  all_dims c vars -> all_dims (first_list_len (map snd vars)) vars.
Proof.
  unfold all_dims. induction vars as [|[k v] rest IH]; intro H;
    [constructor|].
  inversion H as [|? ? Hv Hrest]; subst. cbn [map snd first_list_len].
  destruct v as [o|l].
  - constructor; [intros l E; discriminate | now apply IH].
  - cbn [snd] in Hv. rewrite (Hv l eq_refl). exact H.
Qed.

Lemma well_formed_first_positive (vars : dict pyval) :
  Forall (fun kv => item_well_formed kv = true) vars ->
  1 <= first_list_len (map snd vars).
Proof.
  induction vars as [|[k v] rest IH]; intro H; cbn [map snd first_list_len];
    [lia|].
  inversion H as [|? ? Hkv Hrest]; subst. destruct v as [o|l]; [now apply IH|].
  unfold item_well_formed in Hkv. apply andb_true_iff in Hkv.
  destruct Hkv as [_ Hnz]. apply negb_true_iff, Nat.eqb_neq in Hnz. lia.
Qed.

Lemma well_formed_typed (vars : dict pyval) :
  Forall (fun kv => item_well_formed kv = true) vars ->
  Forall (fun kv => item_typed kv = true) vars.
Proof.
  apply Forall_impl. intros kv H. unfold item_well_formed in H.
  now apply andb_true_iff in H.
Qed.

Lemma seed_item_accs (f : Z) (start : nat) (kv : pykey * pyval) :
  item_typed kv = true -> seed (snd kv) = item_accs f start 0 kv.
Proof.
  destruct kv as [k v]. unfold item_typed, item_accs. cbn [snd].
  destruct k as [[z|s]|t]; [discriminate | |].
  - destruct v as [[z|s']|l]; try discriminate. intros _.
    unfold seed, geometric. cbn [seq map int_of Z.of_nat].
    now rewrite Z.pow_0_r, Z.mul_1_r.
  - destruct v as [o|l]; [discriminate|]. intro H.
    apply andb_true_iff in H. destruct H as [H _].
    apply andb_true_iff in H. destruct H as [_ Hint].
    rewrite <- (@seed_dim_values (map int_of l) f start (length l))
      by (now rewrite length_map).
    unfold lv. now rewrite (typed_ints _ Hint).
Qed.

Lemma scale_param_item (f : Z) (start K e : nat) (kv : pykey * pyval) :
  1 <= K ->
  (forall l, snd kv = VList l -> length l = K) ->
  scale_param (rotation start K) f e (item_accs f start e kv)
  = Ok (item_accs f start (S e) kv).
Proof.
  intros HK Hdim. unfold item_accs. destruct (snd kv) as [o|l].
  - cbn [scale_param]. rewrite py_last_geometric. cbn [bind py_mul].
    now rewrite geometric_S.
  - rewrite (Hdim l eq_refl).
    exact (@scale_param_step (map int_of l) f start K e HK).
Qed.

Lemma scale_step_items (f : Z) (start K e : nat) (vars : dict pyval) :
  1 <= K -> all_dims K vars ->
  scale_step (rotation start K) f e
    (map (fun kv => (fst kv, item_accs f start e kv)) vars)
  = Ok (map (fun kv => (fst kv, item_accs f start (S e) kv)) vars).
Proof.
  intros HK Hall. unfold scale_step.
  induction Hall as [|kv rest Hkv Hrest IH]; [reflexivity|].
  cbn [map mapM fst snd]. rewrite (scale_param_item f start e kv HK Hkv).
  cbn [bind]. rewrite IH. reflexivity.
Qed.

Lemma scale_loop_items (f : Z) (start K : nat) (vars : dict pyval) :
  1 <= K -> all_dims K vars ->
  forall m a,
    foldM (fun s e => scale_step (rotation start K) f e s) (seq a m)
      (map (fun kv => (fst kv, item_accs f start a kv)) vars)
    = Ok (map (fun kv => (fst kv, item_accs f start (a + m) kv)) vars).
Proof.
  intros HK Hall. induction m as [|m IH]; intro a.
  - now rewrite Nat.add_0_r.
  - cbn [seq foldM]. rewrite (scale_step_items f start a HK Hall).
    cbn [bind]. rewrite IH. now rewrite Nat.add_succ_r.
Qed.

Lemma seed_variables_items (f : Z) (start : nat) (vars : dict pyval) :
  Forall (fun kv => item_typed kv = true) vars ->
  seed_variables vars = map (fun kv => (fst kv, item_accs f start 0 kv)) vars.
Proof.
  intro H. unfold seed_variables. apply map_ext_in. intros kv Hin.
  rewrite Forall_forall in H. now rewrite (seed_item_accs f start kv (H kv Hin)).
Qed.

Lemma unpack_item_out (f : Z) (start n : nat) (out : dict pyval)
  (kv : pykey * pyval) :
  item_typed kv = true -> 1 <= n ->
  unpack_item out (fst kv, item_accs f start n kv)
  = Ok (dict_union out (item_out f start n kv)).
Proof.
  destruct kv as [k v]. unfold item_typed, item_accs. cbn [fst snd].
  destruct k as [[z|s]|t]; [discriminate | |].
  - destruct v as [[z|s']|l]; try discriminate. intros _ Hn.
    cbn [unpack_item item_out]. unfold reduce_acc.
    rewrite geometric_length.
    destruct (Nat.ltb_spec 1 (S n)); [reflexivity | lia].
  - destruct v as [o|l]; [discriminate|]. intros H Hn.
    apply andb_true_iff in H. destruct H as [_ Hlen].
    apply Nat.eqb_eq in Hlen. cbn [unpack_item item_out].
    rewrite unpack_tuple_all.
    + now rewrite map_map.
    + now rewrite length_map, length_seq.
    + apply Forall_forall. intros acc Hin. apply in_map_iff in Hin.
      destruct Hin as [p [E _]]. subst acc. rewrite dim_values_length. lia.
Qed.

Lemma unpack_items (f : Z) (start n : nat) (vars : dict pyval)
  (out : dict pyval) :
  Forall (fun kv => item_typed kv = true) vars -> 1 <= n ->
  foldM unpack_item (map (fun kv => (fst kv, item_accs f start n kv)) vars)
    out
  = Ok (dict_union out (sweep_items f start n vars)).
Proof.
  intros H Hn. revert out.
  induction H as [|kv rest Hkv Hrest IH]; intro out; [reflexivity|].
  cbn [map foldM]. rewrite (unpack_item_out f start out kv Hkv Hn).
  cbn [bind]. rewrite IH. unfold sweep_items. cbn [flat_map].
  now rewrite dict_union_app.
Qed.

Lemma check_ok_all_dims (vars : dict pyval) (st : option nat) :
  Forall (fun kv => item_well_formed kv = true) vars ->
  check_variables vars = Ok st ->
  exists c, all_dims c vars.
Proof.
  intros Hwf Hcheck.
  destruct (@check_well_formed vars None Hwf I) as [E|[st' [E [_ Hall]]]].
  - unfold check_variables in Hcheck. congruence.
  - destruct st' as [c|].
    + exists c. apply Forall_forall. intros [k v] Hin l Hv.
      cbn [snd] in Hv. subst v.
      pose proof (well_formed_typed Hwf) as Hty.
      rewrite Forall_forall in Hty. specialize (Hty _ Hin).
      unfold item_typed in Hty. destruct k as [[z|s]|t]; try discriminate.
      specialize (Hall _ _ Hin). congruence.
    + exists 0. apply Forall_forall. intros [k v] Hin l Hv.
      cbn [snd] in Hv. subst v.
      pose proof (well_formed_typed Hwf) as Hty.
      rewrite Forall_forall in Hty. specialize (Hty _ Hin).
      unfold item_typed in Hty. destruct k as [[z|s]|t]; try discriminate.
      specialize (Hall _ _ Hin). discriminate.
Qed.

(** A set of well-formed items that passes the check is swept without
    error; with at least one experiment after the first the result is the
    dictionary of [sweep_items]. *)

Lemma sweep_well_formed
  (vars : dict pyval) (f count : Z) (d : option pykey)
  (st : option nat) (key : pykey) (val : pyval) :
  Forall (fun kv => item_well_formed kv = true) vars ->
  check_variables vars = Ok st ->
  resolve_driver vars d = Ok key ->
  dict_get vars key = Ok val ->
  (2 <= count)%Z ->
  exists start,
    driver_start val start
    /\ scale_experiment_variables vars f count d
       = Ok (dict_union []
               (sweep_items f start (Z.to_nat (count - 1)) vars)).
Proof.
  intros Hwf Hcheck Hres Hget Hcount.
  pose proof (well_formed_typed Hwf) as Hty.
  assert (Hne : val <> VList []).
  { destruct (dict_get_In _ _ Hget) as [k' Hin].
    rewrite Forall_forall in Hwf. specialize (Hwf _ Hin).
    unfold item_well_formed in Hwf. apply andb_true_iff in Hwf.
    destruct Hwf as [_ Hnz]. intro E. subst val. discriminate. }
  pose proof (typed_value_accepted _ Hty Hget Hne) as Hacc.
  destruct (configure_scaling_policy_ok _ _ Hget Hacc) as [start [Hs Hconf]].
  exists start. split; [exact Hs|].
  destruct (check_ok_all_dims Hwf Hcheck) as [c Hc].
  pose proof (all_dims_first Hc) as Hdims.
  pose proof (well_formed_first_positive Hwf) as HK.
  unfold scale_experiment_variables.
  destruct vars as [|kv rest]; [discriminate|].
  rewrite Hres. cbn [bind].
  assert (M : dict_mem (kv :: rest) key = true).
  { apply dict_mem_get. now exists val. }
  rewrite M. cbn [negb]. rewrite Hcheck. cbn [bind]. rewrite Hconf.
  cbn [bind]. unfold scale_loop.
  rewrite (seed_variables_items f start Hty).
  rewrite (scale_loop_items f start HK Hdims (Z.to_nat (count - 1)) 0).
  cbn [bind Nat.add]. unfold unpack.
  apply unpack_items; [exact Hty | lia].
Qed.

(** X1. A set of well-formed items that passes the check, with a driver
    that resolves to a key and a count of at least 2, is swept without
    error: the result is the dictionary of the items of [sweep_items], a
    scalar name with [base * factor ^ e] and component [p] of a tuple name
    with [base_p * factor ^ t], [t] counting the earlier experiments whose
    round-robin slot is [p]; with pairwise distinct names the result is
    this list of items in insertion order. *)
Theorem sweep_result_of_valid_set
  (vars : dict pyval) (f count : Z) (d : option pykey)
  (st : option nat) (key : pykey) (val : pyval)
  (Hwf : Forall (fun kv => item_well_formed kv = true) vars)
  (Hcheck : check_variables vars = Ok st)
  (Hdriver : resolve_driver vars d = Ok key)
  (Hget : dict_get vars key = Ok val)
  (Hcount : (2 <= count)%Z) :
  exists start,
    driver_start val start
    /\ scale_experiment_variables vars f count d
       = Ok (dict_union []
               (sweep_items f start (Z.to_nat (count - 1)) vars))
    /\ (NoDup (dict_keys (sweep_items f start (Z.to_nat (count - 1)) vars)) ->
        scale_experiment_variables vars f count d
        = Ok (sweep_items f start (Z.to_nat (count - 1)) vars)).
Proof.
  destruct (sweep_well_formed f d Hwf Hcheck Hdriver Hget Hcount)
    as [start [Hs E]].
  exists start. split; [exact Hs|]. split; [exact E|].
  intro ND. rewrite E. f_equal. now apply (@dict_union_fresh _ []).
Qed.

Lemma sweep_result_of_valid_set_witness :
  Forall (fun kv => item_well_formed kv = true)
    [(tk ["n"; "r"], lv [4; 1]%Z); (sk "x", iv 10)]
  /\ (2 <= 3)%Z
  /\ exists start,
       driver_start (lv [4; 1]%Z) start
       /\ scale_experiment_variables
            [(tk ["n"; "r"], lv [4; 1]%Z); (sk "x", iv 10)] 2 3 None
          = Ok (dict_union []
                  (sweep_items 2 start (Z.to_nat (3 - 1))
                     [(tk ["n"; "r"], lv [4; 1]%Z); (sk "x", iv 10)])).
Proof.
  assert (W : Forall (fun kv => item_well_formed kv = true)
                [(tk ["n"; "r"], lv [4; 1]%Z); (sk "x", iv 10)]).
  { repeat constructor. }
  assert (C : (2 <= 3)%Z) by lia.
  split; [exact W|]. split; [exact C|].
  destruct (@sweep_result_of_valid_set
              [(tk ["n"; "r"], lv [4; 1]%Z); (sk "x", iv 10)] 2 3 None
              (Some 2) (tk ["n"; "r"]) (lv [4; 1]%Z)
              W eq_refl eq_refl eq_refl C) as [start [Hs [E _]]].
  exists start. split; [exact Hs | exact E].
Defined.

(** *** Sets of scalars *)

Lemma check_scalars (items : list (string * Z)) (st : option nat) :
  foldM check_item (map (fun sb => (sk (fst sb), iv (snd sb))) items) st
  = Ok st.
Proof.
  induction items as [|[s b] items IH]; [reflexivity|].
  cbn [map foldM fst snd sk iv check_item bind]. exact IH.
Qed.

Lemma scalars_well_formed (items : list (string * Z)) :
  Forall (fun kv => item_well_formed kv = true)
    (map (fun sb => (sk (fst sb), iv (snd sb))) items).
Proof.
  induction items as [|[s b] items IH]; constructor; [reflexivity | exact IH].
Qed.

Lemma sweep_items_scalars (f : Z) (start n : nat)
  (items : list (string * Z)) :
  sweep_items f start n (map (fun sb => (sk (fst sb), iv (snd sb))) items)
  = map (fun sb => (sk (fst sb), VList (geometric (snd sb) f n))) items.
Proof.
  unfold sweep_items. induction items as [|[s b] items IH]; [reflexivity|].
  cbn [map flat_map fst snd sk iv item_out int_of app]. now rewrite IH.
Qed.

(** X2. In a set of scalar variables every variable is scaled in every
    experiment: with a driver that resolves to a key and a count of at
    least 2, each name gets the values [base * factor ^ e] for [e] from 0
    to [count - 1]. *)
Theorem scalar_set_geometric
  (items : list (string * Z)) (f count : Z) (d : option pykey) (key : pykey)
  (Hdriver :
     resolve_driver (map (fun sb => (sk (fst sb), iv (snd sb))) items) d
     = Ok key)
  (Hkey :
     dict_mem (map (fun sb => (sk (fst sb), iv (snd sb))) items) key = true)
  (Hcount : (2 <= count)%Z) :
  scale_experiment_variables
    (map (fun sb => (sk (fst sb), iv (snd sb))) items) f count d
  = Ok (dict_union []
          (map (fun sb =>
                  (sk (fst sb),
                   VList (geometric (snd sb) f (Z.to_nat (count - 1)))))
             items)).
Proof.
  apply dict_mem_get in Hkey. destruct Hkey as [val Hget].
  destruct (@sweep_well_formed _ f count d None key val
              (scalars_well_formed items) (check_scalars items None)
              Hdriver Hget Hcount) as [start [_ E]].
  now rewrite E, sweep_items_scalars.
Qed.

Lemma scalar_set_geometric_witness :
  resolve_driver
    (map (fun sb => (sk (fst sb), iv (snd sb))) [("x", 10%Z); ("y", 3%Z)])
    None
  = Ok (sk "x")
  /\ (2 <= 3)%Z
  /\ scale_experiment_variables
       (map (fun sb => (sk (fst sb), iv (snd sb))) [("x", 10%Z); ("y", 3%Z)])
       2 3 None
     = Ok [(sk "x", lv [10; 20; 40]%Z); (sk "y", lv [3; 6; 12]%Z)].
Proof.
  assert (C : (2 <= 3)%Z) by lia.
  split; [reflexivity|]. split; [exact C|].
  exact (@scalar_set_geometric [("x", 10%Z); ("y", 3%Z)] 2 3 None (sk "x")
           eq_refl eq_refl C).
Defined.

(** *** Shape of the result *)

Lemma dict_set_values (V : Type) (P : V -> Prop) (d : dict V)
  (k : pykey) (v : V) :
  Forall (fun kv => P (snd kv)) d -> P v ->
  Forall (fun kv => P (snd kv)) (dict_set d k v).
Proof.
  intros Hd Hv. induction Hd as [|[k0 v0] d H0 Hd IH]; simpl.
  - constructor; [exact Hv | constructor].
  - destruct (pykey_eqb k0 k); constructor; auto.
Qed.

Lemma dict_union_values (V : Type) (P : V -> Prop) (d items : dict V) :
  Forall (fun kv => P (snd kv)) d ->
  Forall (fun kv => P (snd kv)) items ->
  Forall (fun kv => P (snd kv)) (dict_union d items).
Proof.
  intros Hd Hi. revert d Hd.
  induction Hi as [|[k v] items Hkv Hi IH]; intros d Hd; [exact Hd|].
  rewrite dict_union_cons. apply IH. now apply dict_set_values.
Qed.

Lemma geometric_ints (b f : Z) (n : nat) :
  int_list_of_length (S n) (VList (geometric b f n)).
Proof.
  exists (map (fun e => (b * f ^ Z.of_nat e)%Z) (seq 0 (S n))). split.
  - unfold geometric. now rewrite map_map.
  - now rewrite length_map, length_seq.
Qed.

Lemma dim_values_ints (vals : list Z) (f : Z) (start k p n : nat) :
  int_list_of_length (S n) (VList (dim_values vals f start k p n)).
Proof.
  exists (map (fun e =>
                 (nth p vals 0 * f ^ Z.of_nat (scaled_times start k p e))%Z)
            (seq 0 (S n))). split.
  - unfold dim_values. now rewrite map_map.
  - now rewrite length_map, length_seq.
Qed.

Lemma Forall_combine_r (A B : Type) (P : B -> Prop) (a : list A)
  (b : list B) :
  Forall P b -> Forall (fun ab => P (snd ab)) (combine a b).
Proof.
  intro H. revert a. induction H as [|y b Hy Hb IH]; intros [|x a]; simpl;
    constructor; auto.
Qed.

Lemma sweep_items_ints (f : Z) (start n : nat) (vars : dict pyval) :
  Forall (fun kv => int_list_of_length (S n) (snd kv))
    (sweep_items f start n vars).
Proof.
  unfold sweep_items. rewrite Forall_flat_map. apply Forall_forall.
  intros [k v] _. unfold item_out.
  destruct k as [o|t]; destruct v as [o'|l].
  - constructor; [apply geometric_ints | constructor].
  - constructor.
  - constructor; [apply geometric_ints | constructor].
  - apply Forall_combine_r. apply Forall_forall. intros x Hin.
  apply in_map_iff in Hin. destruct Hin as [p [E _]]. subst x.
  apply dim_values_ints.
Qed.

(** X3. Under the conditions of X1 every value of the result is a list of
    exactly [count] integers. *)
Theorem sweep_result_lengths
  (vars : dict pyval) (f count : Z) (d : option pykey)
  (st : option nat) (key : pykey) (val : pyval)
  (Hwf : Forall (fun kv => item_well_formed kv = true) vars)
  (Hcheck : check_variables vars = Ok st)
  (Hdriver : resolve_driver vars d = Ok key)
  (Hget : dict_get vars key = Ok val)
  (Hcount : (2 <= count)%Z) :
  exists out,
    scale_experiment_variables vars f count d = Ok out
    /\ Forall (fun kv => int_list_of_length (Z.to_nat count) (snd kv)) out.
Proof.
  destruct (sweep_well_formed f d Hwf Hcheck Hdriver Hget Hcount)
    as [start [_ E]].
  eexists. split; [exact E|].
  replace (Z.to_nat count) with (S (Z.to_nat (count - 1))) by lia.
  apply dict_union_values; [constructor | apply sweep_items_ints].
Qed.

Lemma sweep_result_lengths_witness :
  Forall (fun kv => item_well_formed kv = true)
    [(tk ["n"; "r"], lv [4; 1]%Z); (sk "x", iv 10)]
  /\ (2 <= 5)%Z
  /\ exists out,
       scale_experiment_variables
         [(tk ["n"; "r"], lv [4; 1]%Z); (sk "x", iv 10)] 3 5 None = Ok out
       /\ Forall (fun kv => int_list_of_length 5 (snd kv)) out.
Proof.
  assert (W : Forall (fun kv => item_well_formed kv = true)
                [(tk ["n"; "r"], lv [4; 1]%Z); (sk "x", iv 10)]).
  { repeat constructor. }
  assert (C : (2 <= 5)%Z) by lia.
  split; [exact W|]. split; [exact C|].
  exact (@sweep_result_lengths
           [(tk ["n"; "r"], lv [4; 1]%Z); (sk "x", iv 10)] 3 5 None
           (Some 2) (tk ["n"; "r"]) (lv [4; 1]%Z)
           W eq_refl eq_refl eq_refl C).
Defined.

(** *** One more experiment *)

Lemma dict_set_extends (d d' : dict pyval) (k : pykey) (v v' : pyval) :
  Forall2 extends_item d d' ->
  extends_item (k, v) (k, v') ->
  Forall2 extends_item (dict_set d k v) (dict_set d' k v').
Proof.
  intros H Hv. induction H as [|[k0 v0] [k0' v0'] d d' H0 H IH]; simpl.
  - constructor; [exact Hv | constructor].
  - assert (E : k0 = k0') by (destruct H0 as [E _]; exact E). subst k0'.
    destruct (pykey_eqb k0 k).
    + constructor; [|exact H]. destruct Hv as [_ Hv]. split; [reflexivity|].
      exact Hv.
    + constructor; [exact H0 | exact IH].
Qed.

Lemma dict_union_extends (d d' items items' : dict pyval) :
  Forall2 extends_item d d' ->
  Forall2 extends_item items items' ->
  Forall2 extends_item (dict_union d items) (dict_union d' items').
Proof.
  intros Hd Hi. revert d d' Hd.
  induction Hi as [|[k v] [k' v'] items items' H0 Hi IH]; intros d d' Hd;
    [exact Hd|].
  rewrite !dict_union_cons. cbn [fst snd]. apply IH.
  assert (E : k = k') by (destruct H0 as [E _]; exact E). subst k'.
  now apply dict_set_extends.
Qed.

Lemma Forall2_combine_same (A B : Type) (R : A * B -> A * B -> Prop)
  (a : list A) (b b' : list B) :
  Forall2 (fun y y' => forall x, R (x, y) (x, y')) b b' ->
  Forall2 R (combine a b) (combine a b').
Proof.
  intro H. revert a. induction H as [|y y' b b' Hy Hb IH]; intros [|x a];
    simpl; constructor; auto.
Qed.

Lemma Forall2_map_same (A B : Type) (R : B -> B -> Prop) (g g' : A -> B)
  (l : list A) :
  (forall x, R (g x) (g' x)) -> Forall2 R (map g l) (map g' l).
Proof. intro H. induction l; simpl; constructor; auto. Qed.

Lemma Forall2_flat_map_same (A B : Type) (R : B -> B -> Prop)
  (g g' : A -> list B) (l : list A) :
  (forall x, Forall2 R (g x) (g' x)) ->
  Forall2 R (flat_map g l) (flat_map g' l).
Proof.
  intro H. induction l as [|x l IH]; simpl; [constructor|].
  apply Forall2_app; auto.
Qed.

Lemma sweep_items_extends (f : Z) (start n : nat) (vars : dict pyval) :
  Forall2 extends_item (sweep_items f start n vars)
    (sweep_items f start (S n) vars).
Proof.
  unfold sweep_items. apply Forall2_flat_map_same. intros [k v].
  unfold item_out. destruct k as [o|t]; destruct v as [o'|l].
  - constructor; [|constructor].
    split; [reflexivity|]. cbn [snd]. rewrite geometric_S. eauto.
  - constructor.
  - constructor; [|constructor].
    split; [reflexivity|]. cbn [snd]. rewrite geometric_S. eauto.
  - apply Forall2_combine_same. apply Forall2_map_same. intros p x.
    split; [reflexivity|]. cbn [snd]. rewrite dim_values_S. eauto.
Qed.

(** X4. Under the conditions of X1, asking for one more experiment keeps
    every name and every value of the result and adds one value at the end
    of each sequence. *)
Theorem one_more_experiment_extends
  (vars : dict pyval) (f count : Z) (d : option pykey)
  (st : option nat) (key : pykey) (val : pyval)
  (Hwf : Forall (fun kv => item_well_formed kv = true) vars)
  (Hcheck : check_variables vars = Ok st)
  (Hdriver : resolve_driver vars d = Ok key)
  (Hget : dict_get vars key = Ok val)
  (Hcount : (2 <= count)%Z) :
  exists out out',
    scale_experiment_variables vars f count d = Ok out
    /\ scale_experiment_variables vars f (count + 1) d = Ok out'
    /\ Forall2 extends_item out out'.
Proof.
  destruct (sweep_well_formed f d Hwf Hcheck Hdriver Hget Hcount)
    as [start [Hs E]].
  assert (Hcount' : (2 <= count + 1)%Z) by lia.
  destruct (sweep_well_formed f d Hwf Hcheck Hdriver Hget Hcount')
    as [start' [Hs' E']].
  assert (start' = start).
  { clear - Hs Hs'. destruct val as [o|l]; simpl in *; [congruence|].
    destruct Hs as [zs [Ez [H1 [H2 H3]]]].
    destruct Hs' as [zs' [Ez' [H1' [H2' H3']]]].
    rewrite Ez in Ez'. apply map_PInt_inj in Ez'. subst zs'.
    destruct (Nat.lt_trichotomy start start') as [L|[L|L]]; [|auto|].
    - specialize (H3' _ L). specialize (H2 _ H1'). lia.
    - specialize (H3 _ L). specialize (H2' _ H1). lia. }
  subst start'.
  eexists. eexists. split; [exact E|]. split; [exact E'|].
  replace (Z.to_nat (count + 1 - 1)) with (S (Z.to_nat (count - 1))) by lia.
  apply dict_union_extends; [constructor | apply sweep_items_extends].
Qed.

Lemma one_more_experiment_extends_witness :
  Forall (fun kv => item_well_formed kv = true)
    [(tk ["n"; "r"], lv [4; 1]%Z); (sk "x", iv 10)]
  /\ (2 <= 3)%Z
  /\ exists out out',
       scale_experiment_variables
         [(tk ["n"; "r"], lv [4; 1]%Z); (sk "x", iv 10)] 2 3 None = Ok out
       /\ scale_experiment_variables
            [(tk ["n"; "r"], lv [4; 1]%Z); (sk "x", iv 10)] 2 (3 + 1) None
          = Ok out'
       /\ Forall2 extends_item out out'.
Proof.
  assert (W : Forall (fun kv => item_well_formed kv = true)
                [(tk ["n"; "r"], lv [4; 1]%Z); (sk "x", iv 10)]).
  { repeat constructor. }
  assert (C : (2 <= 3)%Z) by lia.
  split; [exact W|]. split; [exact C|].
  exact (@one_more_experiment_extends
           [(tk ["n"; "r"], lv [4; 1]%Z); (sk "x", iv 10)] 2 3 None
           (Some 2) (tk ["n"; "r"]) (lv [4; 1]%Z)
           W eq_refl eq_refl eq_refl C).
Defined.

(** *** Failures *)

Lemma check_item_documented (st : option nat) (kv : pykey * pyval) :
  raises_only documented_error (check_item st kv).
Proof.
  destruct kv as [k v]. unfold check_item.
  assert (D : forall A (m : string),
             In m sweep_messages ->
             raises_only documented_error (@Raise A (RuntimeError m))).
  { intros A m Hm. apply raises_only_raise. now exists m. }
  destruct k as [[z|s]|t].
  - apply D. simpl. tauto.
  - destruct v as [[z|s']|l]; auto with raises; apply D; simpl; tauto.
  - destruct (forallb is_str t); [|apply D; simpl; tauto].
    destruct v as [o|l]; [apply D; simpl; tauto|].
    destruct (forallb is_int l); [|apply D; simpl; tauto].
    destruct (negb (Nat.eqb (length t) (length l)));
      [apply D; simpl; tauto|].
    match goal with |- context [if negb ?b then _ else _] => destruct b end;
      simpl; auto with raises. apply D; simpl; tauto.
Qed.

Lemma check_variables_documented (vars : dict pyval) :
  raises_only documented_error (check_variables vars).
Proof.
  unfold check_variables. apply raises_only_foldM.
  intros; apply check_item_documented.
Qed.

Lemma typed_nonempty_well_formed (vars : dict pyval) :
  Forall (fun kv => item_typed kv = true) vars ->
  Forall (fun kv => snd kv <> VList []) vars ->
  Forall (fun kv => item_well_formed kv = true) vars.
Proof.
  intros Hty Hne. rewrite Forall_forall in *. intros [k v] Hin.
  unfold item_well_formed. rewrite (Hty _ Hin). cbn [andb].
  specialize (Hne _ Hin). cbn [snd] in Hne.
  destruct v as [o|l]; [reflexivity|]. destruct l; [congruence | reflexivity].
Qed.

(** When no value of the set is the empty list, a set that passes the
    check is swept without error, whatever the factor and the count. *)

Lemma sweep_succeeds (vars : dict pyval) (f count : Z) (d : option pykey)
  (st : option nat) (key : pykey) :
  Forall (fun kv => snd kv <> VList []) vars ->
  check_variables vars = Ok st ->
  resolve_driver vars d = Ok key ->
  dict_mem vars key = true ->
  exists out, scale_experiment_variables vars f count d = Ok out.
Proof.
  intros Hne Hcheck Hres Hmem.
  apply dict_mem_get in Hmem. destruct Hmem as [val Hget].
  pose proof (check_variables_ok_typed _ Hcheck) as Hty.
  pose proof (typed_nonempty_well_formed Hty Hne) as Hwf.
  destruct (Z.le_gt_cases 2 count) as [L|G].
  - destruct (sweep_well_formed f d Hwf Hcheck Hres Hget L) as [s [_ E]].
    eauto.
  - eexists. eapply sweep_without_experiments; eauto; [lia|].
    destruct (dict_get_In _ _ Hget) as [k' Hin].
    rewrite Forall_forall in Hne. exact (Hne _ Hin).
Qed.

Lemma resolve_driver_nonempty (kv : pykey * pyval) (rest : dict pyval)
  (d : option pykey) :
  exists key, resolve_driver (kv :: rest) d = Ok key.
Proof.
  unfold resolve_driver. destruct kv as [k0 v0]. cbn [dict_first_key].
  destruct d as [k|]; [destruct (key_truthy k)|]; eauto.
Qed.

Lemma sweep_failure_documented
  (vars : dict pyval) (f count : Z) (d : option pykey) (e : pyexc) :
  Forall (fun kv => snd kv <> VList []) vars ->
  scale_experiment_variables vars f count d = Raise e ->
  documented_error e.
Proof.
  intros Hne Hfail.
  destruct vars as [|kv rest]; [discriminate|].
  destruct (resolve_driver_nonempty kv rest d) as [key Hres].
  destruct (dict_mem (kv :: rest) key) eqn:M.
  - destruct (check_variables (kv :: rest)) as [st|e'] eqn:C.
    + destruct (sweep_succeeds f count d Hne C Hres M) as [out E].
      congruence.
    + unfold scale_experiment_variables in Hfail.
      rewrite Hres in Hfail. cbn [bind] in Hfail. rewrite M in Hfail.
      cbn [negb] in Hfail. rewrite C in Hfail. cbn [bind] in Hfail.
      inversion Hfail; subst e'.
      exact (@check_variables_documented (kv :: rest) e C).
  - unfold scale_experiment_variables in Hfail.
    rewrite Hres in Hfail. cbn [bind] in Hfail. rewrite M in Hfail.
    cbn [negb] in Hfail. inversion Hfail; subst e.
    exists msg_invalid_driver. split; [reflexivity | now left].
Qed.


(** X5. When no value of the set is the empty list, the only way the
    sweep fails is with a [RuntimeError] carrying one of its six messages:
    no other exception leaves it. *)
Theorem failures_are_documented_errors
  (vars : dict pyval) (f count : Z) (d : option pykey) (e : pyexc)
  (Hne : Forall (fun kv => snd kv <> VList []) vars)
  (Hfail : scale_experiment_variables vars f count d = Raise e) :
  exists m, e = RuntimeError m /\ In m sweep_messages.
Proof.
  exact (sweep_failure_documented f count d Hne Hfail).
Qed.

Lemma failures_are_documented_errors_witness :
  Forall (fun kv => snd kv <> VList [])
    [(tk ["a"], lv [1]%Z); (tk ["b"; "c"], lv [1; 2]%Z)]
  /\ scale_experiment_variables
       [(tk ["a"], lv [1]%Z); (tk ["b"; "c"], lv [1; 2]%Z)] 2 3 None
     = Raise (RuntimeError msg_dims)
  /\ exists m, RuntimeError msg_dims = RuntimeError m /\ In m sweep_messages.
Proof.
  assert (N : Forall (fun kv => snd kv <> VList [])
                [(tk ["a"], lv [1]%Z); (tk ["b"; "c"], lv [1; 2]%Z)]).
  { repeat constructor; discriminate. }
  split; [exact N|]. split; [reflexivity|].
  exact (@failures_are_documented_errors
           [(tk ["a"], lv [1]%Z); (tk ["b"; "c"], lv [1; 2]%Z)] 2 3 None
           (RuntimeError msg_dims) N eq_refl).
Defined.

Lemma sweep_runtime_error (vars : dict pyval) (f count : Z)
  (d : option pykey) (m : string) (kv : pykey * pyval)
  (rest : dict pyval) (key : pykey) :
  vars = kv :: rest ->
  resolve_driver vars d = Ok key ->
  (scale_experiment_variables vars f count d = Raise (RuntimeError m)
   <-> (dict_mem vars key = false /\ m = msg_invalid_driver)
       \/ (dict_mem vars key = true
           /\ check_variables vars = Raise (RuntimeError m))).
Proof.
  intros Ev Hres. subst vars. unfold scale_experiment_variables.
  rewrite Hres. cbn [bind].
  destruct (dict_mem (kv :: rest) key) eqn:M; cbn [negb].
  - destruct (check_variables (kv :: rest)) as [st|e] eqn:C; cbn [bind].
    + split.
      * intro H. exfalso.
        assert (R : raises_only not_runtime
                      (scaling_order_index <-
                         configure_scaling_policy (kv :: rest) key ;;
                       scaled_variables <-
                         scale_loop scaling_order_index f
                           (Z.to_nat (count - 1))
                           (seed_variables (kv :: rest)) ;;
                       unpack scaled_variables)).
        { apply raises_only_bind;
            [apply configure_scaling_policy_raises | intro o].
          apply raises_only_bind; [apply scale_loop_raises | intro s].
          apply unpack_raises. }
        exact (R _ H).
      * intros [[H _]|[_ H]]; discriminate.
    + split.
      * intro H. right. split; [reflexivity | congruence].
      * intros [[H _]|[_ H]]; [discriminate | congruence].
  - split.
    + intro H. left. split; [reflexivity | congruence].
    + intros [[_ H]|[H _]]; [now subst m | discriminate].
Qed.

(** X6. The checks come before the generation: whether the sweep fails
    with a [RuntimeError], and with which message, depends on the set and
    the driver alone, not on the factor or the count. *)
Theorem runtime_error_independent_of_factor_and_count
  (vars : dict pyval) (f count f' count' : Z) (d : option pykey)
  (m : string) :
  scale_experiment_variables vars f count d = Raise (RuntimeError m)
  <-> scale_experiment_variables vars f' count' d = Raise (RuntimeError m).
Proof.
  destruct vars as [|kv rest]; [split; discriminate|].
  destruct (resolve_driver_nonempty kv rest d) as [key Hres].
  rewrite (@sweep_runtime_error _ f count d m kv rest key eq_refl Hres).
  rewrite (@sweep_runtime_error _ f' count' d m kv rest key eq_refl Hres).
  reflexivity.
Qed.

(** X7. When no value of the set is the empty list, success does not
    depend on the factor or the count either: a sweep that succeeds for one
    factor and count succeeds for all. *)
Theorem success_independent_of_factor_and_count
  (vars : dict pyval) (f count f' count' : Z) (d : option pykey)
  (out : dict pyval)
  (Hne : Forall (fun kv => snd kv <> VList []) vars)
  (Hok : scale_experiment_variables vars f count d = Ok out) :
  exists out', scale_experiment_variables vars f' count' d = Ok out'.
Proof.
  destruct (scale_experiment_variables vars f' count' d) as [out'|e] eqn:E;
    [eauto|].
  destruct (sweep_failure_documented f' count' d Hne E) as [m [Em _]].
  subst e. exfalso.
  destruct vars as [|kv rest]; [discriminate|].
  destruct (resolve_driver_nonempty kv rest d) as [key Hres].
  apply (@sweep_runtime_error _ f' count' d m kv rest key eq_refl Hres) in E.
  apply (@sweep_runtime_error _ f count d m kv rest key eq_refl Hres) in E.
  congruence.
Qed.

Lemma success_independent_of_factor_and_count_witness :
  Forall (fun kv => snd kv <> VList [])
    [(tk ["n"; "r"], lv [4; 1]%Z); (sk "x", iv 10)]
  /\ exists out',
       scale_experiment_variables
         [(tk ["n"; "r"], lv [4; 1]%Z); (sk "x", iv 10)] (-5) 40 None
       = Ok out'.
Proof.
  assert (N : Forall (fun kv => snd kv <> VList [])
                [(tk ["n"; "r"], lv [4; 1]%Z); (sk "x", iv 10)]).
  { repeat constructor; discriminate. }
  split; [exact N|].
  exact (@success_independent_of_factor_and_count
           [(tk ["n"; "r"], lv [4; 1]%Z); (sk "x", iv 10)] 2 1 (-5) 40 None
           _ N eq_refl).
Defined.

(** *** What the check accepts *)

Lemma check_equal_dims (vars : dict pyval) (c : nat) (st : option nat) :
  Forall (fun kv => item_well_formed kv = true) vars ->
  all_dims c vars ->
  st = None \/ st = Some c ->
  exists st', foldM check_item vars st = Ok st'.
Proof.
  intros Hwf Hall. revert st.
  induction Hwf as [|[k v] rest Hkv Hrest IH]; intros st Hst;
    [now exists st|].
  inversion Hall as [|? ? Hv Hall']; subst. cbn [snd] in Hv.
  unfold item_well_formed in Hkv. apply andb_true_iff in Hkv.
  destruct Hkv as [Hty Hnz]. cbn [foldM].
  destruct k as [[z|s]|t]; [discriminate | |].
  - destruct v as [[z|s']|l]; try discriminate.
    cbn [check_item bind]. now apply IH.
  - destruct v as [o|l]; [discriminate|]. cbn [item_typed] in Hty.
    apply andb_true_iff in Hty. destruct Hty as [Hty Hlen].
    apply andb_true_iff in Hty. destruct Hty as [Hstr Hint].
    apply negb_true_iff, Nat.eqb_neq in Hnz.
    specialize (Hv l eq_refl). cbn [check_item].
    rewrite Hstr, Hint, Hlen. cbn [negb].
    destruct Hst as [E|E]; subst st; cbn [n_dims_unset].
    + rewrite Nat.eqb_refl. cbn [negb bind]. apply IH; [exact Hall'|].
      right. now rewrite Hv.
    + destruct (Nat.eqb_spec c 0) as [Z|NZ]; [lia|].
      rewrite Hv, Nat.eqb_refl. cbn [negb bind]. apply IH; [exact Hall'|].
      now right.
Qed.

(** X8. When no value of the set is the empty list, the check accepts the
    set exactly when every item is a string name with an integer or a
    tuple of strings with a list of as many integers, and all the lists
    have one common length. *)
Theorem check_accepts_iff
  (vars : dict pyval)
  (Hne : Forall (fun kv => snd kv <> VList []) vars) :
  (exists st, check_variables vars = Ok st)
  <-> Forall (fun kv => item_typed kv = true) vars
      /\ exists c, all_dims c vars.
Proof.
  split.
  - intros [st Hcheck].
    pose proof (check_variables_ok_typed _ Hcheck) as Hty.
    split; [exact Hty|].
    exact (check_ok_all_dims (typed_nonempty_well_formed Hty Hne) Hcheck).
  - intros [Hty [c Hc]]. unfold check_variables.
    apply (@check_equal_dims vars c None
             (typed_nonempty_well_formed Hty Hne) Hc).
    now left.
Qed.

Lemma check_accepts_iff_witness :
  Forall (fun kv => snd kv <> VList [])
    [(tk ["n"; "r"], lv [4; 1]%Z); (sk "x", iv 10);
     (tk ["a"; "b"], lv [7; 7]%Z)]
  /\ exists st,
       check_variables
         [(tk ["n"; "r"], lv [4; 1]%Z); (sk "x", iv 10);
          (tk ["a"; "b"], lv [7; 7]%Z)] = Ok st.
Proof.
  assert (N : Forall (fun kv => snd kv <> VList [])
                [(tk ["n"; "r"], lv [4; 1]%Z); (sk "x", iv 10);
                 (tk ["a"; "b"], lv [7; 7]%Z)]).
  { repeat constructor; discriminate. }
  split; [exact N|].
  apply (proj2 (@check_accepts_iff _ N)). split.
  - repeat constructor.
  - exists 2. repeat constructor; cbn [snd]; intros l E;
      try discriminate; inversion E; reflexivity.
Defined.

(** *** Weak scaling of disjoint groups *)

(** X9. When the resource group is not empty and no key occurs twice in
    the two groups, weak scaling returns what strong scaling returns on
    the resource items followed by the problem-size items. *)
Theorem weak_scaling_of_disjoint_groups
  (resource problem : dict pyval) (f n : Z)
  (Hne : resource <> [])
  (Hdisjoint : NoDup (dict_keys (resource ++ problem))) :
  generate_weak_scaling_params resource problem f n
  = generate_strong_scaling_params (resource ++ problem) f n.
Proof.
  unfold generate_weak_scaling_params, generate_strong_scaling_params.
  rewrite (dict_union_fresh _ _ Hdisjoint).
  destruct resource as [|[k0 v0] rest]; [congruence|].
  change (dict_first_key ((k0, v0) :: rest)) with (@Ok pykey k0).
  unfold bind at 1. now apply scale_first_key_driver.
Qed.

Lemma weak_scaling_of_disjoint_groups_witness :
  [(tk ["n"; "r"], lv [1; 4]%Z)] <> []
  /\ NoDup (dict_keys ([(tk ["n"; "r"], lv [1; 4]%Z)]
                       ++ [(tk ["x"; "y"], lv [8; 8]%Z)]))
  /\ generate_weak_scaling_params [(tk ["n"; "r"], lv [1; 4]%Z)]
       [(tk ["x"; "y"], lv [8; 8]%Z)] 2 3
     = generate_strong_scaling_params
         ([(tk ["n"; "r"], lv [1; 4]%Z)] ++ [(tk ["x"; "y"], lv [8; 8]%Z)])
         2 3.
Proof.
  assert (N : [(tk ["n"; "r"], lv [1; 4]%Z)] <> []) by discriminate.
  assert (D : NoDup (dict_keys ([(tk ["n"; "r"], lv [1; 4]%Z)]
                                ++ [(tk ["x"; "y"], lv [8; 8]%Z)]))).
  { constructor; [|constructor; [intros []|constructor]].
    intros [E|[]]. discriminate. }
  split; [exact N|]. split; [exact D|].
  exact (@weak_scaling_of_disjoint_groups _ _ 2 3 N D).
Defined.

(** *** A scalar driver *)

Lemma rotation_zero (k : nat) : rotation 0 k = seq 0 k.
Proof.
  unfold rotation. rewrite <- (map_id (seq 0 k)) at 2.
  apply map_ext_in. intros i Hi. apply in_seq in Hi. cbn [Nat.add].
  apply Nat.mod_small. lia.
Qed.

(** X10. For a driver of the set whose value is a scalar the planner
    returns the dimensions in ascending order, [0 .. k-1]. *)
Theorem scalar_driver_ascending_order
  (vars : dict pyval) (d : pykey) (o : pyobj)
  (Hkey : dict_get vars d = Ok (VObj o)) :
  configure_scaling_policy vars d
  = Ok (seq 0 (first_list_len (map snd vars))).
Proof.
  unfold configure_scaling_policy. rewrite Hkey. cbn [bind].
  f_equal. apply rotation_zero.
Qed.

Lemma scalar_driver_ascending_order_witness :
  dict_get [(sk "x", iv 10); (tk ["a"; "b"; "c"], lv [4; 1; 9]%Z)] (sk "x")
  = Ok (VObj (PInt 10))
  /\ configure_scaling_policy
       [(sk "x", iv 10); (tk ["a"; "b"; "c"], lv [4; 1; 9]%Z)] (sk "x")
     = Ok [0; 1; 2].
Proof.
  split; [reflexivity|].
  exact (@scalar_driver_ascending_order
           [(sk "x", iv 10); (tk ["a"; "b"; "c"], lv [4; 1; 9]%Z)] (sk "x")
           (PInt 10) eq_refl).
Defined.

(** *** Weak scaling of a resource tuple and a problem-size tuple *)

Lemma int_of_PInt (zs : list Z) : map int_of (map PInt zs) = zs.
Proof.
  rewrite map_map. cbn [int_of]. apply map_id.
Qed.

Lemma map_PStr_inj (a b : list string) : map PStr a = map PStr b -> a = b.
Proof.
  revert b. induction a as [|x a IH]; intros [|y b] H; try discriminate;
    [reflexivity|].
  inversion H; subst. f_equal. now apply IH.
Qed.

Lemma tuple_item_well_formed (names : list string) (vals : list Z) :
  length names = length vals -> 1 <= length vals ->
  item_well_formed (tk names, lv vals) = true.
Proof.
  intros Hlen Hk. unfold item_well_formed, item_typed, tk, lv.
  rewrite all_str_of_map, all_int_of_map, !length_map, Hlen, Nat.eqb_refl.
  cbn [andb]. destruct (length vals); [lia | reflexivity].
Qed.

Lemma item_out_tuple (f : Z) (start n : nat) (names : list string)
  (vals : list Z) :
  item_out f start n (tk names, lv vals)
  = combine (map sk names)
      (map (fun p => VList (dim_values vals f start (length vals) p n))
         (seq 0 (length vals))).
Proof.
  unfold item_out, tk, lv. rewrite int_of_PInt, length_map, map_map.
  reflexivity.
Qed.

Lemma nth_error_dim_values (vals : list Z) (f : Z) (start k p n e : nat) :
  e <= n ->
  nth_error (dim_values vals f start k p n) e
  = Some (PInt (nth p vals 0 * f ^ Z.of_nat (scaled_times start k p e))%Z).
Proof.
  intro He. unfold dim_values.
  rewrite (map_nth_error _ e (seq 0 (S n)) (d := e)); [reflexivity|].
  rewrite (nth_error_nth' _ 0) by (rewrite length_seq; lia).
  rewrite seq_nth by lia. reflexivity.
Qed.

(** X11. Weak scaling of one resource tuple and one problem-size tuple
    with as many components scales the same dimension of both in every
    experiment, chosen from the resource values: in each experiment and
    each dimension the problem size per unit of resource is the one of the
    base values. *)
Theorem weak_scaling_keeps_ratio
  (rnames pnames : list string) (rvals pvals : list Z) (f count : Z)
  (Hr : length rnames = length rvals)
  (Hp : length pnames = length pvals)
  (Hdims : length pvals = length rvals)
  (Hk : 1 <= length rvals)
  (Hnames : rnames <> pnames)
  (Hcount : (2 <= count)%Z) :
  exists start,
    first_min_index rvals start
    /\ generate_weak_scaling_params [(tk rnames, lv rvals)]
         [(tk pnames, lv pvals)] f count
       = Ok (dict_union []
               (combine (map sk rnames)
                  (map (fun p =>
                          VList (dim_values rvals f start (length rvals) p
                                   (Z.to_nat (count - 1))))
                     (seq 0 (length rvals)))
                ++ combine (map sk pnames)
                     (map (fun p =>
                             VList (dim_values pvals f start (length rvals)
                                      p (Z.to_nat (count - 1))))
                        (seq 0 (length rvals)))))
    /\ forall p e,
         p < length rvals -> e <= Z.to_nat (count - 1) ->
         exists a b,
           nth_error
             (dim_values rvals f start (length rvals) p
                (Z.to_nat (count - 1))) e = Some (PInt a)
           /\ nth_error
                (dim_values pvals f start (length rvals) p
                   (Z.to_nat (count - 1))) e = Some (PInt b)
           /\ (a * nth p pvals 0 = b * nth p rvals 0)%Z.
Proof.
  set (vars := [(tk rnames, lv rvals); (tk pnames, lv pvals)]).
  assert (Hunion : dict_union [(tk rnames, lv rvals)] [(tk pnames, lv pvals)]
                   = vars).
  { unfold dict_union. cbn [fold_left dict_set fst snd].
    assert (N : pykey_eqb (tk rnames) (tk pnames) = false).
    { apply pykey_eqb_neq. unfold tk. intro E. inversion E.
      now apply Hnames, map_PStr_inj. }
    now rewrite N. }
  assert (Hwf : Forall (fun kv => item_well_formed kv = true) vars).
  { constructor; [now apply tuple_item_well_formed|].
    constructor; [|constructor].
    apply tuple_item_well_formed; [exact Hp | lia]. }
  assert (Hall : all_dims (length rvals) vars).
  { constructor; [|constructor; [|constructor]]; cbn [snd]; intros l E;
      inversion E; rewrite length_map; [reflexivity | exact Hdims]. }
  destruct (@check_equal_dims vars (length rvals) None Hwf Hall
              (or_introl eq_refl)) as [st Hcheck].
  assert (Hres : resolve_driver vars (Some (tk rnames)) = Ok (tk rnames)).
  { unfold resolve_driver, tk. cbn [key_truthy].
    rewrite length_map, Hr. destruct (length rvals); [lia | reflexivity]. }
  assert (Hget : dict_get vars (tk rnames) = Ok (lv rvals)).
  { cbn [vars dict_get]. now rewrite pykey_eqb_refl. }
  destruct (@sweep_well_formed vars f count (Some (tk rnames)) st
              (tk rnames) (lv rvals) Hwf Hcheck Hres Hget Hcount)
    as [start [Hs E]].
  destruct Hs as [zs [Ez Hmin]]. apply map_PInt_inj in Ez. subst zs.
  exists start. split; [exact Hmin|]. split.
  - unfold generate_weak_scaling_params. cbn [dict_first_key bind].
    rewrite Hunion, E. unfold sweep_items, vars. cbn [flat_map].
    rewrite !item_out_tuple, Hdims, app_nil_r. reflexivity.
  - intros p e Hp' He. eexists. eexists.
    split; [now apply nth_error_dim_values|].
    split; [now apply nth_error_dim_values|]. ring.
Qed.

Lemma weak_scaling_keeps_ratio_witness :
  length ["n"; "r"] = length [1; 4]%Z
  /\ length ["x"; "y"] = length [8; 16]%Z
  /\ length [8; 16]%Z = length [1; 4]%Z
  /\ 1 <= length [1; 4]%Z
  /\ ["n"; "r"] <> ["x"; "y"]
  /\ (2 <= 3)%Z
  /\ exists start,
       first_min_index [1; 4]%Z start
       /\ generate_weak_scaling_params [(tk ["n"; "r"], lv [1; 4]%Z)]
            [(tk ["x"; "y"], lv [8; 16]%Z)] 2 3
          = Ok (dict_union []
                  (combine (map sk ["n"; "r"])
                     (map (fun p => VList (dim_values [1; 4]%Z 2 start 2 p 2))
                        (seq 0 2))
                   ++ combine (map sk ["x"; "y"])
                        (map (fun p =>
                                VList (dim_values [8; 16]%Z 2 start 2 p 2))
                           (seq 0 2)))).
Proof.
  assert (H1 : length ["n"; "r"] = length [1; 4]%Z) by reflexivity.
  assert (H2 : length ["x"; "y"] = length [8; 16]%Z) by reflexivity.
  assert (H3 : length [8; 16]%Z = length [1; 4]%Z) by reflexivity.
  assert (H4 : 1 <= length [1; 4]%Z) by (simpl; lia).
  assert (H5 : ["n"; "r"] <> ["x"; "y"]) by discriminate.
  assert (H6 : (2 <= 3)%Z) by lia.
  repeat (split; [assumption|]).
  destruct (@weak_scaling_keeps_ratio ["n"; "r"] ["x"; "y"] [1; 4]%Z
              [8; 16]%Z 2 3 H1 H2 H3 H4 H5 H6) as [start [Hmin [E _]]].
  exists start. split; [exact Hmin | exact E].
Defined.

(** The sweep of the witness, computed. *)
Example weak_scaling_run :
  generate_weak_scaling_params [(tk ["n"; "r"], lv [1; 4]%Z)]
    [(tk ["x"; "y"], lv [8; 16]%Z)] 2 3
  = Ok [(sk "n", lv [1; 2; 2]%Z); (sk "r", lv [4; 4; 8]%Z);
        (sk "x", lv [8; 16; 16]%Z); (sk "y", lv [16; 16; 32]%Z)].
Proof. reflexivity. Qed.

(** ** Tioga: choice of configuration files *)




Lemma tioga_join_inj (loc : Tioga.path) (a b c a' b' c' : string) :
  Tioga.join (Tioga.join (Tioga.join loc a) b) c
  = Tioga.join (Tioga.join (Tioga.join loc a') b') c' ->
  a = a' /\ b = b' /\ c = c'.
Proof.
  unfold Tioga.join. rewrite <- !app_assoc. intro H.
  apply app_inv_head in H. inversion H. auto.
Qed.

(** X13. The GTL-enabled MPI file is selected exactly when the compiler is
    [cce] and [gtl] is ["true"]; with any other compiler the value of
    [gtl] is not read. *)
Theorem tioga_gtl_mpi_iff (loc : Tioga.path) (v : Tioga.variants) :
  (In (Tioga.join
         (Tioga.join (Tioga.join loc "externals") "mpi")
         "02-cce-ygtl-packages.yaml")
      (Tioga.external_pkg_configs loc v)
   <-> Tioga.compiler v = "cce" /\ Tioga.gtl v = "true")
  /\ (Tioga.compiler v <> "cce" ->
      forall g,
        Tioga.external_pkg_configs loc
          {| Tioga.rocm := Tioga.rocm v; Tioga.gtl := g;
             Tioga.compiler := Tioga.compiler v |}
        = Tioga.external_pkg_configs loc v).
Proof.
  destruct v as [r g c]. cbn [Tioga.rocm Tioga.compiler Tioga.gtl].
  split.
  - unfold Tioga.external_pkg_configs.
    cbn [Tioga.rocm Tioga.compiler Tioga.gtl].
    destruct (String.eqb_spec r "543"); [|destruct (String.eqb_spec r "551")];
      (destruct (String.eqb_spec c "cce");
       [destruct (String.eqb_spec g "true")|destruct (String.eqb_spec c "gcc")]);
      cbn [app In]; split;
      try (intros [Hc Hg]; congruence);
      try (intros _; tauto);
      intro H; repeat (destruct H as [H|H]);
      try contradiction;
      try (apply tioga_join_inj in H; destruct H as [? [? ?]]; discriminate);
      auto.
  - intros Hc g'. unfold Tioga.external_pkg_configs.
    cbn [Tioga.rocm Tioga.compiler Tioga.gtl].
    destruct (String.eqb_spec c "cce"); [contradiction | reflexivity].
Qed.

(** X14. Values outside the declared ones are passed over without error:
    the number of selected files is 1, plus 1 when [rocm] is ["543"] or
    ["551"], plus 2 when the compiler is ["cce"] or ["gcc"]; and
    [compiler_configs] selects one file for these two compilers and none
    for any other. *)
Theorem tioga_selection_counts (loc : Tioga.path) (v : Tioga.variants) :
  length (Tioga.external_pkg_configs loc v)
  = 1
    + (if String.eqb (Tioga.rocm v) "543" || String.eqb (Tioga.rocm v) "551"
       then 1 else 0)
    + (if String.eqb (Tioga.compiler v) "cce"
          || String.eqb (Tioga.compiler v) "gcc"
       then 2 else 0)
  /\ length (Tioga.compiler_configs loc v)
     = (if String.eqb (Tioga.compiler v) "cce"
           || String.eqb (Tioga.compiler v) "gcc"
        then 1 else 0).
Proof.
  destruct v as [r g c]. cbn [Tioga.rocm Tioga.compiler Tioga.gtl].
  unfold Tioga.external_pkg_configs, Tioga.compiler_configs.
  cbn [Tioga.rocm Tioga.compiler Tioga.gtl].
  destruct (String.eqb r "543"); destruct (String.eqb r "551");
    destruct (String.eqb c "cce"); destruct (String.eqb c "gcc");
    destruct (String.eqb g "true"); split; reflexivity.
Qed.

(** ** Every way the sweep can fail *)

Lemma py_last_ok (A : Type) (l : list A) :
  l <> [] -> exists x, py_last l = Ok x.
Proof.
  induction l as [|a [|b l] IH]; intro H; [congruence | now exists a |].
  destruct IH as [x Hx]; [discriminate|]. exists x. exact Hx.
Qed.

Lemma order_at_cases (order : list nat) (e : nat) :
  (exists d, order_at order e = Ok d)
  \/ (order_at order e = Raise ZeroDivisionError /\ length order = 0).
Proof.
  unfold order_at. destruct (length order) as [|m] eqn:L; [now right|].
  left. destruct (nth_error order (e mod S m)) as [d|] eqn:N; [now exists d|].
  apply nth_error_None in N.
  pose proof (Nat.mod_upper_bound e (S m) ltac:(lia)). lia.
Qed.

Lemma scale_dims_cases (order : list nat) (f : Z) (e : nat)
  (param : list (list pyobj)) (i : nat) :
  accs_ok param ->
  (exists p', scale_dims order f e i param = Ok p'
              /\ length p' = length param /\ accs_ok p')
  \/ (scale_dims order f e i param = Raise ZeroDivisionError
      /\ length order = 0).
Proof.
  intro H. revert i. induction H as [|acc rest Hacc Hrest IH]; intro i.
  - left. exists []. repeat split. constructor.
  - cbn [scale_dims].
    destruct (order_at_cases order e) as [[d Hd]|[Hd Hz]];
      rewrite Hd; cbn [bind]; [|now right].
    destruct (py_last_ok Hacc) as [x Hx]. rewrite Hx. cbn [bind].
    destruct (IH (S i)) as [[p' [Hp [Hlen Hok]]]|[Hp Hz]];
      rewrite Hp; cbn [bind]; [|now right].
    left. eexists. split; [reflexivity|]. split; [simpl; lia|].
    constructor; [|exact Hok]. destruct acc; discriminate.
Qed.

Lemma scale_param_cases (order : list nat) (f : Z) (e : nat)
  (param : list (list pyobj)) :
  accs_ok param ->
  (exists p', scale_param order f e param = Ok p'
              /\ length p' = length param /\ accs_ok p')
  \/ (scale_param order f e param = Raise ZeroDivisionError
      /\ length order = 0).
Proof.
  intro H. unfold scale_param. destruct param as [|p0 [|p1 rest]].
  - now apply scale_dims_cases.
  - left. inversion H as [|? ? H0 _]; subst.
    destruct (py_last_ok H0) as [x Hx]. rewrite Hx. cbn [bind].
    eexists. split; [reflexivity|]. split; [reflexivity|].
    constructor; [|constructor]. destruct p0; discriminate.
  - now apply scale_dims_cases.
Qed.

Lemma scale_step_cases (order : list nat) (f : Z) (e : nat)
  (vars : dict pyval) (s : dict (list (list pyobj))) :
  follows vars s ->
  (exists s', scale_step order f e s = Ok s' /\ follows vars s')
  \/ (scale_step order f e s = Raise ZeroDivisionError /\ length order = 0).
Proof.
  unfold scale_step, follows.
  induction 1 as [|kv sp vars s [Hk [Hl Ha]] Hrest IH].
  - left. exists []. split; [reflexivity | constructor].
  - cbn [mapM].
    destruct (scale_param_cases order f e Ha) as [[p' [Hp [Hlen Hok]]]|[Hp Hz]];
      rewrite Hp; cbn [bind]; [|now right].
    destruct IH as [[s' [Hs Hf]]|[Hs Hz]]; rewrite Hs; cbn [bind];
      [|now right].
    left. eexists. split; [reflexivity|]. constructor; [|exact Hf].
    cbn [fst snd]. repeat split; [exact Hk | congruence | exact Hok].
Qed.

Lemma scale_loop_cases (order : list nat) (f : Z) (vars : dict pyval)
  (l : list nat) (s : dict (list (list pyobj))) :
  follows vars s ->
  (exists s', foldM (fun s e => scale_step order f e s) l s = Ok s'
              /\ follows vars s')
  \/ (foldM (fun s e => scale_step order f e s) l s = Raise ZeroDivisionError
      /\ length order = 0 /\ l <> []).
Proof.
  revert s. induction l as [|e l IH]; intros s H.
  - left. exists s. split; [reflexivity | exact H].
  - cbn [foldM].
    destruct (scale_step_cases order f e H) as [[s' [Hs Hf]]|[Hs Hz]];
      rewrite Hs; cbn [bind].
    + destruct (IH s' Hf) as [[s'' [Hs' Hf']]|[Hs' [Hz _]]].
      * left. now exists s''.
      * right. repeat split; [exact Hs' | exact Hz | discriminate].
    + right. repeat split; [exact Hz | discriminate].
Qed.

Lemma follows_seed (vars : dict pyval) :
  Forall (fun kv => item_typed kv = true) vars ->
  follows vars (seed_variables vars).
Proof.
  unfold follows, seed_variables. intro H.
  induction H as [|[k v] rest Hkv Hrest IH]; [constructor|].
  cbn [map]. constructor; [|exact IH]. cbn [fst snd].
  repeat split. unfold accs_ok, seed. destruct v as [o|l].
  - constructor; [discriminate | constructor].
  - apply Forall_forall. intros acc Hin. apply in_map_iff in Hin.
    destruct Hin as [x [E _]]. subst acc. discriminate.
Qed.

Lemma reduce_acc_ok (acc : list pyobj) :
  acc <> [] -> exists r, reduce_acc acc = Ok r.
Proof.
  intro H. unfold reduce_acc. destruct (Nat.ltb 1 (length acc)); [eauto|].
  destruct acc; [congruence | eauto].
Qed.

Lemma unpack_tuple_ok (t : list pyobj) (v : list (list pyobj)) :
  accs_ok v ->
  forall i out,
    i + length t <= length v ->
    exists out', unpack_tuple t i v out = Ok out'.
Proof.
  intro Hv. induction t as [|name t IH]; intros i out Hlen; [simpl; eauto|].
  cbn [unpack_tuple]. simpl in Hlen.
  destruct (nth_error v i) as [acc|] eqn:N.
  - assert (Hacc : acc <> []).
    { unfold accs_ok in Hv. rewrite Forall_forall in Hv. apply Hv.
      eapply nth_error_In; eauto. }
    destruct (reduce_acc_ok Hacc) as [r Hr]. rewrite Hr. cbn [bind].
    apply IH. lia.
  - apply nth_error_None in N. lia.
Qed.

Lemma unpack_ok (vars : dict pyval) (s : dict (list (list pyobj))) :
  Forall (fun kv => item_typed kv = true) vars ->
  follows vars s ->
  forall out, exists out', foldM unpack_item s out = Ok out'.
Proof.
  intros Hty Hf. unfold follows in Hf.
  induction Hf as [|[k v] [k' param] vars s [Hk [Hl Ha]] Hrest IH];
    intro out; [simpl; eauto|].
  inversion Hty as [|? ? Hkv Hty']; subst. cbn [fst snd] in *. subst k'.
  cbn [foldM].
  assert (Hitem : exists out1, unpack_item out (k, param) = Ok out1).
  { unfold item_typed in Hkv. cbn [unpack_item].
    destruct k as [[z|str]|t]; [discriminate | |].
    - destruct v as [[z|s']|l]; try discriminate. cbn [seed length] in Hl.
      destruct param as [|acc rest]; [discriminate|].
      inversion Ha as [|? ? Hacc _]; subst.
      destruct (reduce_acc_ok Hacc) as [r Hr]. rewrite Hr. cbn [bind]. eauto.
    - destruct v as [o|l]; [discriminate|].
      apply andb_true_iff in Hkv. destruct Hkv as [_ Hlen].
      apply Nat.eqb_eq in Hlen. cbn [seed] in Hl. rewrite length_map in Hl.
      apply unpack_tuple_ok; [exact Ha | lia]. }
  destruct Hitem as [out1 H1]. rewrite H1. cbn [bind]. now apply IH.
Qed.

Lemma configure_typed_cases (vars : dict pyval) (key : pykey) (val : pyval) :
  Forall (fun kv => item_typed kv = true) vars ->
  dict_get vars key = Ok val ->
  (exists order,
      configure_scaling_policy vars key = Ok order
      /\ length order = first_list_len (map snd vars))
  \/ (configure_scaling_policy vars key = Raise ValueError
      /\ val = VList []).
Proof.
  intros Hty Hget. destruct val as [o|[|x l]].
  - left. destruct (configure_scaling_policy_ok _ _ Hget eq_refl)
      as [start [_ E]].
    eexists. split; [exact E | apply rotation_length].
  - right. split; [|reflexivity]. unfold configure_scaling_policy.
    rewrite Hget. reflexivity.
  - left.
    assert (Hacc : scalar_or_nonempty_ints (VList (x :: l)) = true).
    { apply (typed_value_accepted _ Hty Hget). discriminate. }
    destruct (configure_scaling_policy_ok _ _ Hget Hacc) as [start [_ E]].
    eexists. split; [exact E | apply rotation_length].
Qed.

(** The outcomes of a sweep. *)

Lemma sweep_cases (vars : dict pyval) (f count : Z) (d : option pykey) :
  (exists out, scale_experiment_variables vars f count d = Ok out)
  \/ (exists m,
         scale_experiment_variables vars f count d = Raise (RuntimeError m)
         /\ In m sweep_messages)
  \/ (scale_experiment_variables vars f count d = Raise ValueError
      /\ exists key st,
           resolve_driver vars d = Ok key
           /\ check_variables vars = Ok st
           /\ dict_get vars key = Ok (VList []))
  \/ (scale_experiment_variables vars f count d = Raise ZeroDivisionError
      /\ first_list_len (map snd vars) = 0
      /\ (2 <= count)%Z).
Proof.
  destruct vars as [|kv rest]; [left; now exists []|].
  destruct (resolve_driver_nonempty kv rest d) as [key Hres].
  unfold scale_experiment_variables. rewrite Hres. cbn [bind].
  destruct (dict_mem (kv :: rest) key) eqn:M; cbn [negb].
  2:{ right; left. exists msg_invalid_driver. split; [reflexivity | now left]. }
  destruct (check_variables (kv :: rest)) as [st|e] eqn:C; cbn [bind].
  2:{ right; left.
      destruct (@check_variables_documented (kv :: rest) e C) as [m [Em Hm]].
      exists m. split; [congruence | exact Hm]. }
  pose proof (check_variables_ok_typed _ C) as Hty.
  apply dict_mem_get in M. destruct M as [val Hget].
  destruct (configure_typed_cases key Hty Hget) as [[order [Ho Hlen]]|[Ho Hv]];
    rewrite Ho; cbn [bind].
  2:{ right; right; left. split; [reflexivity|]. subst val. eauto. }
  unfold scale_loop.
  destruct (@scale_loop_cases order f (kv :: rest)
              (seq 0 (Z.to_nat (count - 1))) _ (follows_seed Hty))
    as [[s' [Hs Hf]]|[Hs [Hz Hl]]]; rewrite Hs; cbn [bind].
  - left. unfold unpack. now apply (unpack_ok Hty Hf).
  - right; right; right. split; [reflexivity|]. split; [congruence|].
    destruct (Z.to_nat (count - 1)) eqn:N; [now contradiction Hl | lia].
Qed.



(** X16. The sweep raises [ValueError] exactly when the set passes the
    check and the value of the resolved driver is the empty list. *)
Theorem value_error_iff
  (vars : dict pyval) (f count : Z) (d : option pykey) :
  scale_experiment_variables vars f count d = Raise ValueError
  <-> exists key st,
        resolve_driver vars d = Ok key
        /\ check_variables vars = Ok st
        /\ dict_get vars key = Ok (VList []).
Proof.
  split.
  - intro H.
    destruct (sweep_cases vars f count d)
      as [[out E]|[[m [E Hm]]|[[E Hkey]|[E _]]]];
      rewrite E in H; try discriminate. exact Hkey.
  - intros [key [st [Hres [Hcheck Hget]]]].
    unfold scale_experiment_variables.
    destruct vars as [|kv rest]; [discriminate|].
    rewrite Hres. cbn [bind].
    assert (M : dict_mem (kv :: rest) key = true).
    { apply dict_mem_get. eauto. }
    rewrite M. cbn [negb]. rewrite Hcheck. cbn [bind].
    unfold configure_scaling_policy. rewrite Hget. reflexivity.
Qed.

(** ** The first experiment and the factor 1 *)

Section DictRelation.

Variable Q : pyval -> pyval -> Prop.

Lemma dict_set_related (d d' : dict pyval) (k : pykey) (v v' : pyval) :
  Forall2 (fun a b => fst a = fst b /\ Q (snd a) (snd b)) d d' ->
  Q v v' ->
  Forall2 (fun a b => fst a = fst b /\ Q (snd a) (snd b))
    (dict_set d k v) (dict_set d' k v').
Proof.
  intros H Hv. induction H as [|[k0 v0] [k0' v0'] d d' [E H0] H IH]; simpl.
  - constructor; [now split | constructor].
  - cbn [fst snd] in E, H0. subst k0'. destruct (pykey_eqb k0 k).
    + constructor; [now split | exact H].
    + constructor; [now split | exact IH].
Qed.

Lemma dict_union_related (d d' items items' : dict pyval) :
  Forall2 (fun a b => fst a = fst b /\ Q (snd a) (snd b)) d d' ->
  Forall2 (fun a b => fst a = fst b /\ Q (snd a) (snd b)) items items' ->
  Forall2 (fun a b => fst a = fst b /\ Q (snd a) (snd b))
    (dict_union d items) (dict_union d' items').
Proof.
  intros Hd Hi. revert d d' Hd.
  induction Hi as [|[k v] [k' v'] items items' [E H0] Hi IH]; intros d d' Hd;
    [exact Hd|].
  rewrite !dict_union_cons. cbn [fst snd] in *. subst k'.
  apply IH. now apply dict_set_related.
Qed.

End DictRelation.

Lemma dim_values_head (vals : list Z) (f : Z) (start k p n : nat) :
  dim_values vals f start k p n
  = PInt (nth p vals 0%Z) :: tl (dim_values vals f start k p n).
Proof.
  unfold dim_values. cbn [seq map tl]. f_equal. f_equal.
  unfold scaled_times. cbn [seq filter length Z.of_nat].
  now rewrite Z.pow_0_r, Z.mul_1_r.
Qed.

Lemma geometric_head (b f : Z) (n : nat) :
  geometric b f n = PInt b :: tl (geometric b f n).
Proof.
  unfold geometric. cbn [seq map tl Z.of_nat]. f_equal. f_equal.
  now rewrite Z.pow_0_r, Z.mul_1_r.
Qed.

Lemma base_items_start (f : Z) (start n : nat) (vars : dict pyval) :
  Forall (fun kv => item_typed kv = true) vars ->
  Forall2 starts_with_item (base_items vars) (sweep_items f start n vars).
Proof.
  intro H. unfold base_items, sweep_items.
  induction H as [|[k v] rest Hkv Hrest IH]; [constructor|].
  cbn [flat_map]. apply Forall2_app; [|exact IH]. clear IH Hrest.
  unfold item_typed in Hkv. unfold base_items_of, item_out.
  destruct k as [[z|s]|t]; [discriminate | |].
  - destruct v as [[z|s']|l]; try discriminate.
    constructor; [|constructor]. split; [reflexivity|]. cbn [snd int_of].
    rewrite geometric_head. eauto.
  - destruct v as [o|l]; [discriminate|].
    apply andb_true_iff in Hkv. destruct Hkv as [Hkv _].
    apply andb_true_iff in Hkv. destruct Hkv as [_ Hint].
    rewrite <- (typed_ints _ Hint) at 1. rewrite map_map.
    rewrite <- (map_nth_seq (fun z => VObj (PInt z)) 0%Z (map int_of l)).
    rewrite length_map.
    apply Forall2_combine_same. apply Forall2_map_same. intros p x.
    split; [reflexivity|]. cbn [snd]. rewrite dim_values_head. eauto.
Qed.

(** X17. Under the conditions of X1 the first value of every sequence is
    the base value: the result for count 1 and the result for a larger
    count hold the same names, each sequence beginning with the bare value
    that count 1 returns. *)
Theorem first_experiment_is_base
  (vars : dict pyval) (f count : Z) (d : option pykey)
  (st : option nat) (key : pykey) (val : pyval)
  (Hwf : Forall (fun kv => item_well_formed kv = true) vars)
  (Hcheck : check_variables vars = Ok st)
  (Hdriver : resolve_driver vars d = Ok key)
  (Hget : dict_get vars key = Ok val)
  (Hcount : (2 <= count)%Z) :
  exists base out,
    scale_experiment_variables vars f 1 d = Ok base
    /\ scale_experiment_variables vars f count d = Ok out
    /\ Forall2 starts_with_item base out.
Proof.
  destruct (sweep_well_formed f d Hwf Hcheck Hdriver Hget Hcount)
    as [start [_ E]].
  assert (Hne : val <> VList []).
  { destruct (dict_get_In _ _ Hget) as [k' Hin].
    rewrite Forall_forall in Hwf. specialize (Hwf _ Hin).
    unfold item_well_formed in Hwf. apply andb_true_iff in Hwf.
    destruct Hwf as [_ Hnz]. intro Ev. subst val. discriminate. }
  assert (E1 : scale_experiment_variables vars f 1 d
               = Ok (dict_union [] (base_items vars))).
  { eapply sweep_without_experiments; eauto. lia. }
  eexists. eexists. split; [exact E1|]. split; [exact E|].
  apply (@dict_union_related
           (fun v v' => exists x l, v = VObj x /\ v' = VList (x :: l)));
    [constructor|].
  apply base_items_start. now apply well_formed_typed.
Qed.

Lemma first_experiment_is_base_witness :
  Forall (fun kv => item_well_formed kv = true)
    [(tk ["n"; "r"], lv [4; 1]%Z); (sk "x", iv 10)]
  /\ (2 <= 3)%Z
  /\ exists base out,
       scale_experiment_variables
         [(tk ["n"; "r"], lv [4; 1]%Z); (sk "x", iv 10)] 2 1 None = Ok base
       /\ scale_experiment_variables
            [(tk ["n"; "r"], lv [4; 1]%Z); (sk "x", iv 10)] 2 3 None = Ok out
       /\ Forall2 starts_with_item base out.
Proof.
  assert (W : Forall (fun kv => item_well_formed kv = true)
                [(tk ["n"; "r"], lv [4; 1]%Z); (sk "x", iv 10)]).
  { repeat constructor. }
  assert (C : (2 <= 3)%Z) by lia.
  split; [exact W|]. split; [exact C|].
  exact (@first_experiment_is_base
           [(tk ["n"; "r"], lv [4; 1]%Z); (sk "x", iv 10)] 2 3 None
           (Some 2) (tk ["n"; "r"]) (lv [4; 1]%Z)
           W eq_refl eq_refl eq_refl C).
Defined.

Lemma map_constant (A B : Type) (g : A -> B) (c : B) (l : list A) :
  (forall x, g x = c) -> map g l = repeat c (length l).
Proof.
  intro H. induction l as [|x l IH]; simpl; [reflexivity|].
  now rewrite H, IH.
Qed.

Lemma sweep_items_factor_one (start n : nat) (vars : dict pyval) :
  Forall (fun kv => constant_list (S n) (snd kv))
    (sweep_items 1 start n vars).
Proof.
  unfold sweep_items. rewrite Forall_flat_map. apply Forall_forall.
  intros [k v] _. unfold item_out.
  assert (G : forall b, constant_list (S n) (VList (geometric b 1 n))).
  { intro b. exists b. unfold geometric. f_equal.
    rewrite (@map_constant _ _ _ (PInt b)).
    - now rewrite length_seq.
    - intro e. now rewrite Z.pow_1_l, Z.mul_1_r by lia. }
  destruct k as [o|t]; destruct v as [o'|l].
  - constructor; [apply G | constructor].
  - constructor.
  - constructor; [apply G | constructor].
  - apply Forall_combine_r. apply Forall_forall. intros x Hin.
    apply in_map_iff in Hin. destruct Hin as [p [E _]]. subst x.
    exists (nth p (map int_of l) 0%Z). unfold dim_values. f_equal.
    rewrite (@map_constant _ _ _ (PInt (nth p (map int_of l) 0%Z))).
    + now rewrite length_seq.
    + intro e. now rewrite Z.pow_1_l, Z.mul_1_r by lia.
Qed.

(** X18. Under the conditions of X1 and with factor 1 every sequence of
    the result repeats one integer [count] times. *)
Theorem factor_one_repeats_base
  (vars : dict pyval) (count : Z) (d : option pykey)
  (st : option nat) (key : pykey) (val : pyval)
  (Hwf : Forall (fun kv => item_well_formed kv = true) vars)
  (Hcheck : check_variables vars = Ok st)
  (Hdriver : resolve_driver vars d = Ok key)
  (Hget : dict_get vars key = Ok val)
  (Hcount : (2 <= count)%Z) :
  exists out,
    scale_experiment_variables vars 1 count d = Ok out
    /\ Forall (fun kv => constant_list (Z.to_nat count) (snd kv)) out.
Proof.
  destruct (sweep_well_formed 1 d Hwf Hcheck Hdriver Hget Hcount)
    as [start [_ E]].
  eexists. split; [exact E|].
  replace (Z.to_nat count) with (S (Z.to_nat (count - 1))) by lia.
  apply dict_union_values; [constructor | apply sweep_items_factor_one].
Qed.

Lemma factor_one_repeats_base_witness :
  Forall (fun kv => item_well_formed kv = true)
    [(tk ["n"; "r"], lv [4; 1]%Z); (sk "x", iv 10)]
  /\ (2 <= 3)%Z
  /\ exists out,
       scale_experiment_variables
         [(tk ["n"; "r"], lv [4; 1]%Z); (sk "x", iv 10)] 1 3 None = Ok out
       /\ Forall (fun kv => constant_list 3 (snd kv)) out.
Proof.
  assert (W : Forall (fun kv => item_well_formed kv = true)
                [(tk ["n"; "r"], lv [4; 1]%Z); (sk "x", iv 10)]).
  { repeat constructor. }
  assert (C : (2 <= 3)%Z) by lia.
  split; [exact W|]. split; [exact C|].
  exact (@factor_one_repeats_base
           [(tk ["n"; "r"], lv [4; 1]%Z); (sk "x", iv 10)] 3 None
           (Some 2) (tk ["n"; "r"]) (lv [4; 1]%Z)
           W eq_refl eq_refl eq_refl C).
Defined.

(** ** An empty tuple variable in the check *)

Lemma foldM_app (A S : Type) (f : S -> A -> result S) (l l' : list A)
  (s : S) :
  foldM f (l ++ l') s = (s' <- foldM f l s ;; foldM f l' s').
Proof.
  revert s. induction l as [|x l IH]; intro s; [reflexivity|].
  cbn [app foldM]. destruct (f s x); cbn [bind]; [apply IH | reflexivity].
Qed.

Lemma check_item_unset (s s' : option nat) (kv : pykey * pyval) :
  n_dims_unset s = true -> n_dims_unset s' = true ->
  (exists e, check_item s kv = Raise e /\ check_item s' kv = Raise e)
  \/ (check_item s kv = Ok s /\ check_item s' kv = Ok s')
  \/ (exists t, check_item s kv = Ok t /\ check_item s' kv = Ok t).
Proof.
  intros Hs Hs'. destruct kv as [k v]. unfold check_item.
  destruct k as [[z|str]|t]; [left; eauto | |].
  - destruct v as [[z|s0]|l]; [right; left; auto | left; eauto | left; eauto].
  - destruct (forallb is_str t); [|left; eauto].
    destruct v as [o|l]; [left; eauto|].
    destruct (forallb is_int l); [|left; eauto].
    destruct (negb (Nat.eqb (length t) (length l))); [left; eauto|].
    rewrite Hs, Hs'. rewrite Nat.eqb_refl. cbn [negb]. right; right. eauto.
Qed.

Lemma check_from_unset (vars : dict pyval) (s s' : option nat) :
  n_dims_unset s = true -> n_dims_unset s' = true ->
  forall e,
    foldM check_item vars s = Raise e <-> foldM check_item vars s' = Raise e.
Proof.
  revert s s'. induction vars as [|kv rest IH]; intros s s' Hs Hs' e.
  - cbn [foldM]. split; discriminate.
  - cbn [foldM].
    destruct (check_item_unset s s' kv Hs Hs')
      as [[e' [E E']]|[[E E']|[t [E E']]]]; rewrite E, E'; cbn [bind].
    + reflexivity.
    + now apply IH.
    + reflexivity.
Qed.

(** X19. In the check a recorded length 0 counts as no length: an empty
    tuple variable at the head of a set changes neither whether the check
    fails nor its error, while after a tuple variable with components it
    fails the check with the dimension-mismatch error. *)
Theorem empty_tuple_in_check :
  (forall (rest : dict pyval) (e : pyexc),
      check_variables ((KTuple [], VList []) :: rest) = Raise e
      <-> check_variables rest = Raise e)
  /\ (forall (pre post : dict pyval) (n : nat),
         check_variables pre = Ok (Some (S n)) ->
         check_variables (pre ++ (KTuple [], VList []) :: post)
         = Raise (RuntimeError msg_dims)).
Proof.
  split.
  - intros rest e. unfold check_variables. cbn [foldM check_item forallb].
    cbn [length Nat.eqb negb n_dims_unset bind].
    now apply check_from_unset.
  - intros pre post n H. unfold check_variables in *.
    rewrite foldM_app, H. reflexivity.
Qed.

Lemma empty_tuple_in_check_witness :
  check_variables [(tk ["a"], lv [1]%Z)] = Ok (Some 1)
  /\ check_variables
       ([(tk ["a"], lv [1]%Z)] ++ (KTuple [], VList []) :: [(sk "x", iv 3)])
     = Raise (RuntimeError msg_dims).
Proof.
  split; [reflexivity|].
  exact (proj2 empty_tuple_in_check [(tk ["a"], lv [1]%Z)] [(sk "x", iv 3)]
           0 eq_refl).
Defined.
